(** * homework_bot: the polling loop of [homework.py]

    A shallow embedding of the Python module [homework.py] and the
    properties of its polling cycle.  The module polls the Practicum
    homework API, turns the first homework of the answer into a verdict
    message and relays it to a Telegram chat, suppressing repeats.

    Python values are the values [json] decoding produces; a [dict] is a
    finite map on strings.  Text is kept as the UTF-8 bytes of the source
    literals.  Calls into [requests], [telegram] and [time] are answered by
    an explicit environment, and every call to the logger, to the network
    and to [time.sleep] is recorded in a trace, in program order. *)

From Stdlib Require Import ZArith String Ascii List.
From Stdlib Require Import Floats.PrimFloat.
From stdpp Require Import base option list gmap strings pretty.

Local Open Scope Z_scope.
Local Open Scope string_scope.
Local Open Scope list_scope.

(** ** Python values *)

(** What [response.json()] can return: [None], [bool], [int], [float],
    [str], [list] and [dict] with [str] keys. *)
#[warnings="-register-all"]
Inductive pyval : Type :=
| PNone
| PBool (b : bool)
| PInt (n : Z)
| PFloat (x : float)
| PStr (s : string)
| PList (items : list pyval)
| PDict (entries : gmap string pyval).

(** Truth value of an object, as [if homeworks:] tests it. *)
Definition truthy (v : pyval) : bool :=
  match v with
  | PNone => false
  | PBool b => b
  | PInt n => negb (Z.eqb n 0)
  | PFloat x => negb (PrimFloat.eqb x 0%float)
  | PStr s => negb (String.eqb s "")
  | PList items => match items with [] => false | _ :: _ => true end
  | PDict entries => negb (bool_decide (entries = ∅))
  end.

(** [type(v).__name__], as it appears in interpreter error messages. *)
Definition type_name (v : pyval) : string :=
  match v with
  | PNone => "NoneType"
  | PBool _ => "bool"
  | PInt _ => "int"
  | PFloat _ => "float"
  | PStr _ => "str"
  | PList _ => "list"
  | PDict _ => "dict"
  end.


(** [key in d] and [d.get(key)] on a [dict]. *)
Definition dict_contains (key : string) (d : gmap string pyval) : bool :=
  match d !! key with Some _ => true | None => false end.

Definition dict_get (key : string) (d : gmap string pyval) : pyval :=
  default PNone (d !! key).

(** The double quote character, for the literals that contain it. *)
Definition dq : string := String (ascii_of_nat 34) EmptyString.

(** ** Exceptions *)

Inductive exn_class : Type :=
| ConnectionError
| Exception
| TypeError
| KeyError
| IndexError
| AttributeError
| JSONDecodeError
| InvalidToken
| SystemExit.

(** An exception object: its class and the single argument it was built
    with (for exceptions raised by a library, its description). *)
Record pyexn : Type := Raise { exn_class_of : exn_class; exn_arg : string }.

(** ** Trace of observable calls *)

Inductive level : Type := DEBUG | INFO | ERROR | CRITICAL.

Inductive event : Type :=
| Log (lvl : level) (text : string)
    (* a call logger.<lvl>(text) *)
| HttpGet (url authorization : string) (from_date : pyval)
    (* requests.get(url, headers, params) *)
| SendMessage (chat_id : option string) (text : string)
    (* bot.send_message(chat_id, text) *)
| Sleep (seconds : Z).
    (* time.sleep(seconds) *)

(** ** The process state and the monad of effects

    The local variables of [main] and the trace.  A computation either
    returns a value or raises; the state it leaves is kept in both cases,
    as assignments made before a [raise] are. *)
Record machine : Type := Machine {
  current_timestamp : pyval;
  previous_message : string;
  message : string;
  trace : list event
}.

Definition io (A : Type) : Type := machine -> (pyexn + A) * machine.

Definition ret {A} (a : A) : io A := fun σ => (inr a, σ).

Definition raise {A} (cls : exn_class) (arg : string) : io A :=
  fun σ => (inl (Raise cls arg), σ).

Definition bind {A B} (m : io A) (k : A -> io B) : io B :=
  fun σ =>
    match m σ with
    | (inr a, σ') => k a σ'
    | (inl e, σ') => (inl e, σ')
    end.

(** [try: m except Exception as e: h e].  [SystemExit] is not an
    [Exception] and passes through. *)
Definition is_Exception (cls : exn_class) : bool :=
  match cls with SystemExit => false | _ => true end.

Definition try_except {A} (m : io A) (h : pyexn -> io A) : io A :=
  fun σ =>
    match m σ with
    | (inr a, σ') => (inr a, σ')
    | (inl e, σ') =>
        if is_Exception (exn_class_of e) then h e σ' else (inl e, σ')
    end.

(** [try: m finally: f]: [f] runs on both exits; a pending exception is
    raised again after it unless [f] itself raises. *)
Definition try_finally {A} (m : io A) (f : io unit) : io A :=
  fun σ =>
    match m σ with
    | (r, σ') =>
        match f σ' with
        | (inr _, σ'') => (r, σ'')
        | (inl e, σ'') => (inl e, σ'')
        end
    end.

Declare Scope io_scope.
Delimit Scope io_scope with io.
Notation "x <- m ;; k" := (bind m (fun x => k))
  (at level 100, m at next level, right associativity) : io_scope.
Notation "m ;; k" := (bind m (fun _ => k))
  (at level 100, right associativity) : io_scope.
Local Open Scope io_scope.

Definition emit (ev : event) : io unit :=
  fun σ =>
    (inr tt,
     Machine (current_timestamp σ) (previous_message σ) (message σ)
             (trace σ ++ [ev])).

Definition logger_debug (text : string) : io unit := emit (Log DEBUG text).
Definition logger_info (text : string) : io unit := emit (Log INFO text).
Definition logger_error (text : string) : io unit := emit (Log ERROR text).
Definition logger_critical (text : string) : io unit := emit (Log CRITICAL text).

Definition get_current_timestamp : io pyval :=
  fun σ => (inr (current_timestamp σ), σ).
Definition get_previous_message : io string :=
  fun σ => (inr (previous_message σ), σ).
Definition get_message : io string :=
  fun σ => (inr (message σ), σ).

Definition set_current_timestamp (v : pyval) : io unit :=
  fun σ => (inr tt, Machine v (previous_message σ) (message σ) (trace σ)).
Definition set_previous_message (s : string) : io unit :=
  fun σ => (inr tt, Machine (current_timestamp σ) s (message σ) (trace σ)).
Definition set_message (s : string) : io unit :=
  fun σ => (inr tt, Machine (current_timestamp σ) (previous_message σ) s (trace σ)).

(** ** The environment *)

(** [os.getenv] of the three credentials, read once when the module is
    imported: [None] for a variable that is not set. *)
Record config : Type := Config {
  PRACTICUM_TOKEN : option string;
  TELEGRAM_TOKEN : option string;
  TELEGRAM_CHAT_ID : option string
}.

(** What [requests.get] does: it raises (a [RequestException] with some
    description), or it returns a response with a status code whose
    [json()] method returns the decoded body or raises a
    [JSONDecodeError] with some description. *)
Inductive http_outcome : Type :=
| RequestFailed (description : string)
| Response (status_code : Z) (json : string + pyval).

(** What [bot.send_message] does when it keeps to what python-telegram-bot
    documents: every failure of a send, transport or protocol, is a
    [telegram.error.TelegramError], whose [str] is its description.  A
    send that raises an exception of another class is in [open_world]. *)
Inductive send_outcome : Type :=
| Delivered
| TelegramError (description : string).

(** The outside world during one cycle of the loop. *)
Record world : Type := World {
  requests_get : pyval -> http_outcome;
  bot_send_message : string -> send_outcome
}.

(** The outside world when nothing is assumed of the bot.  The [try] of
    [send_message] catches [telegram.error.TelegramError] and nothing
    else: [uncaught text = Some e] says that [bot.send_message] raises
    [e], an exception of another class, on [text]; where it is [None] the
    send does what [answers] says.  [requests.get] is as in [answers]. *)
Record open_world : Type := OpenWorld {
  answers : world;
  uncaught : string -> option pyexn
}.

(** ** Module constants *)

Definition RETRY_PERIOD : Z := 600.

Definition ENDPOINT : string :=
  "https://practicum.yandex.ru/api/user_api/homework_statuses/".

Definition HTTPStatus_OK : Z := 200.

Definition HOMEWORK_VERDICTS : gmap string string :=
  <["approved" := "Работа проверена: ревьюеру всё понравилось. Ура!"]>
  (<["reviewing" := "Работа взята на проверку ревьюером."]>
  (<["rejected" := "Работа проверена: у ревьюера есть замечания."]> ∅)).

(** [hash(v)] succeeds: lists and dicts are unhashable. *)
Definition hashable (v : pyval) : bool :=
  match v with
  | PList _ | PDict _ => false
  | PNone | PBool _ | PInt _ | PFloat _ | PStr _ => true
  end.

(** [HOMEWORK_VERDICTS.get(status)], behind [status in HOMEWORK_VERDICTS]
    and [HOMEWORK_VERDICTS[status]]: the operand is hashed first, which
    raises a [TypeError] for an unhashable one (worded as CPython words it
    up to 3.13); a hashable value that is not a [str] equals none of the
    keys. *)
Definition verdicts_lookup (status : pyval) : io (option string) :=
  if negb (hashable status) then
    raise TypeError ("unhashable type: '" +:+ type_name status +:+ "'")
  else
    ret (match status with
         | PStr s => HOMEWORK_VERDICTS !! s
         | _ => None
         end).

(** The state of a process before [main] has assigned anything. *)
Definition boot : machine := Machine PNone "" "" [].

(** ** Sample inputs

    Concrete worlds and states, for the worked examples that close the
    file. *)

Module Samples.

(** A rendering for the sample runs: CPython's [repr] of [None], of
    booleans and integers, and of strings that hold no quote, backslash or
    unprintable character.  The samples render no other value. *)
Definition repr (v : pyval) : string :=
  match v with
  | PNone => "None"
  | PBool true => "True"
  | PBool false => "False"
  | PInt n => pretty n
  | PStr s => "'" +:+ s +:+ "'"
  | PFloat _ | PList _ | PDict _ => "..."
  end.

Definition credentials : config :=
  Config (Some "y0_practicum") (Some "5000:telegram") (Some "424242").

Definition empty_chat_id : config :=
  Config (Some "y0_practicum") (Some "5000:telegram") (Some "").

Definition homework (name status : pyval) : pyval :=
  PDict (<["homework_name" := name]> (<["status" := status]> ∅)).

Definition answer (homeworks date : pyval) : gmap string pyval :=
  <["homeworks" := homeworks]> (<["current_date" := date]> ∅).

(** A world in which the API answers 200 with [body] and sends succeed. *)
Definition serving (body : pyval) : world :=
  World (fun _ => Response 200 (inr body)) (fun _ => Delivered).

(** A world in which the API cannot be reached. *)
Definition unreachable : world :=
  World (fun _ => RequestFailed "Max retries exceeded") (fun _ => Delivered).

(** A world in which the API answers 200 with [body] and Telegram is down. *)
Definition telegram_down (body : pyval) : world :=
  World (fun _ => Response 200 (inr body))
        (fun _ => TelegramError "Timed out").

(** The loop about to start its first cycle at time 5. *)
Definition started : machine := Machine (PInt 5) "" "" [].

Definition approved_proj1 : string :=
  "Изменился статус проверки работы " +:+ dq +:+ "proj1" +:+ dq +:+
  ". Работа проверена: ревьюеру всё понравилось. Ура!".

(** [body] is served, and every send raises an exception that is not a
    [TelegramError]. *)
Definition broken_bot (body : pyval) : open_world :=
  OpenWorld (serving body) (fun _ => Some (Raise Exception "send failed")).

(** A constructor [telegram.Bot] that refuses the empty token, as
    python-telegram-bot does, and accepts every other one. *)
Definition telegram_Bot (token : option string) : option pyexn :=
  match token with
  | Some "" => Some (Raise InvalidToken "Invalid token")
  | _ => None
  end.

End Samples.

Section Program.

(** [repr] of a value.  Its text for strings (quoting and escapes) and for
    floats is CPython's business; the program only splices it into
    messages, so it stays a parameter. *)
Variable py_repr : pyval -> string.

Variable cfg : config.

(** [str(v)], as an f-string field renders [v]: a [str] is itself, every
    other value is its [repr]. *)
Definition py_str (v : pyval) : string :=
  match v with
  | PStr s => s
  | _ => py_repr v
  end.

(** [str(error)]: the argument, except that [KeyError] shows the [repr]
    of its argument. *)
Definition str_exn (e : pyexn) : string :=
  match exn_class_of e with
  | KeyError => py_repr (PStr (exn_arg e))
  | _ => exn_arg e
  end.

(** [f'{token}'] for a credential, which may be [None]. *)
Definition str_token (t : option string) : string := default "None" t.

Definition HEADERS_Authorization : string :=
  "OAuth " +:+ str_token (PRACTICUM_TOKEN cfg).

(** *** check_tokens *)
Definition check_tokens : bool :=
  forallb (fun value => match value with Some _ => true | None => false end)
          [PRACTICUM_TOKEN cfg; TELEGRAM_TOKEN cfg; TELEGRAM_CHAT_ID cfg].

(** *** send_message *)
Definition send_message (bot : string -> send_outcome) (text : string) : io unit :=
  logger_info ("Бот отправил сообщение: " +:+ text) ;;
  emit (SendMessage (TELEGRAM_CHAT_ID cfg) text) ;;
  match bot text with
  | Delivered => logger_debug ("Бот отправил сообщение: " +:+ text)
  | TelegramError error =>
      logger_error ("Ошибка при отправке сообщения: " +:+ error)
  end.

(** *** get_api_answer *)
Definition get_api_answer (w : world) (current_timestamp : pyval) : io pyval :=
  logger_info "Отправляем запрос к API Практикума" ;;
  let timestamp := current_timestamp in
  emit (HttpGet ENDPOINT HEADERS_Authorization timestamp) ;;
  match requests_get w timestamp with
  | RequestFailed _ =>
      raise ConnectionError "Проблемы с подключением к серверу"
  | Response status_code json =>
      if negb (Z.eqb status_code HTTPStatus_OK) then
        raise Exception
          ("Эндпоинт " +:+ ENDPOINT +:+ " недоступен. " +:+
           "Код ответа API: " +:+ pretty status_code)
      else
        match json with
        | inr body => ret body
        | inl description => raise JSONDecodeError description
        end
  end.

(** *** check_response *)
Definition check_response (response : pyval) : io pyval :=
  logger_info "Начинаем проверку ответа сервера" ;;
  match response with
  | PDict d =>
      if negb (dict_contains "homeworks" d)
         || negb (dict_contains "current_date" d) then
        raise KeyError
          ("Некорректный ответ от API - " +:+
           "в словаре отсутствует необходимый ключ")
      else
        let homeworks := dict_get "homeworks" d in
        match homeworks with
        | PList items =>
            match items !! 0%nat with
            | Some first => ret first
            | None => raise IndexError "list index out of range"
            end
        | _ =>
            raise TypeError
              ("Некорректный ответ от API - " +:+
               dq +:+ "homeworks" +:+ dq +:+ " должен иметь тип list")
        end
  | _ => raise TypeError "Некорректный ответ от API - ожидался словарь"
  end.

(** *** parse_status *)
Definition parse_status (homework : pyval) : io string :=
  match homework with
  | PDict d =>
      if negb (dict_contains "homework_name" d) then
        raise KeyError
          ("Некорректный ответ от API - " +:+
           "в словаре отсутствует ключ " +:+ dq +:+ "homework_name" +:+ dq)
      else
        let homework_name := dict_get "homework_name" d in
        if negb (dict_contains "status" d) then
          raise KeyError
            ("Некорректный ответ от API - " +:+
             "в словаре отсутствует ключ " +:+ dq +:+ "status" +:+ dq)
        else
          let status := dict_get "status" d in
          found <- verdicts_lookup status ;;
          match found with
          | None =>
              raise KeyError
                ("Некорректный ответ от API - " +:+
                 "недокументированный статус домашней работы")
          | Some verdict =>
              ret ("Изменился статус проверки работы " +:+ dq +:+
                   py_str homework_name +:+ dq +:+ ". " +:+ verdict)
          end
  | _ =>
      raise AttributeError
        ("'" +:+ type_name homework +:+ "' object has no attribute 'keys'")
  end.

(** *** main: one turn of [while True] *)

(** [response.get('current_date')]. *)
Definition response_get (key : string) (response : pyval) : io pyval :=
  match response with
  | PDict d => ret (dict_get key d)
  | _ =>
      raise AttributeError
        ("'" +:+ type_name response +:+ "' object has no attribute 'get'")
  end.

Definition time_sleep (seconds : Z) : io unit := emit (Sleep seconds).

(** The body of [try]. *)
Definition try_body (w : world) : io unit :=
  timestamp <- get_current_timestamp ;;
  response <- get_api_answer w timestamp ;;
  homeworks <- check_response response ;;
  (if truthy homeworks then
     text <- parse_status homeworks ;;
     set_message text ;;
     previous <- get_previous_message ;;
     if negb (String.eqb text previous) then
       send_message (bot_send_message w) text ;;
       set_previous_message text
     else ret tt
   else logger_debug "В ответе отсутствует новый статус") ;;
  date <- response_get "current_date" response ;;
  set_current_timestamp date.

(** The body of [except Exception as error]. *)
Definition handler (w : world) (error : pyexn) : io unit :=
  set_message ("Сбой в работе программы: " +:+ str_exn error) ;;
  text <- get_message ;;
  logger_error text ;;
  previous <- get_previous_message ;;
  if negb (String.eqb text previous) then
    send_message (bot_send_message w) text ;;
    set_previous_message text
  else ret tt.

Definition cycle (w : world) : io unit :=
  try_finally (try_except (try_body w) (handler w)) (time_sleep RETRY_PERIOD).

(** [while True], run against the worlds of its successive turns; the
    loop has no exit of its own, the list bounds the observation. *)
Fixpoint loop (ws : list world) : io unit :=
  match ws with
  | [] => ret tt
  | w :: ws' => cycle w ;; loop ws'
  end.

(** [main].  [telegram_Bot] answers the constructor [telegram.Bot(token)]:
    [None] when it returns a bot, the exception otherwise.  [now] is
    [int(time.time())]. *)
Definition main (telegram_Bot : option string -> option pyexn) (now : Z)
    (ws : list world) : io unit :=
  (if check_tokens then
     match telegram_Bot (TELEGRAM_TOKEN cfg) with
     | None => ret tt
     | Some e => fun σ => (inl e, σ)
     end
   else
     logger_critical "Отсутствует обязательная переменная окружения" ;;
     raise SystemExit "Программа принудительно остановлена.") ;;
  set_current_timestamp (PInt now) ;;
  set_previous_message "" ;;
  set_message "" ;;
  loop ws.


(** *** The same functions for a bot that may raise anything

    [send_message] with the third way out of its [try]: an exception that
    is not a [TelegramError] is not caught and leaves the function.  The
    loop around it is [main]'s, unchanged. *)
Definition send_message_any (w : open_world) (text : string) : io unit :=
  logger_info ("Бот отправил сообщение: " +:+ text) ;;
  emit (SendMessage (TELEGRAM_CHAT_ID cfg) text) ;;
  match uncaught w text with
  | Some error => fun σ => (inl error, σ)
  | None =>
      match bot_send_message (answers w) text with
      | Delivered => logger_debug ("Бот отправил сообщение: " +:+ text)
      | TelegramError error =>
          logger_error ("Ошибка при отправке сообщения: " +:+ error)
      end
  end.

Definition try_body_any (w : open_world) : io unit :=
  timestamp <- get_current_timestamp ;;
  response <- get_api_answer (answers w) timestamp ;;
  homeworks <- check_response response ;;
  (if truthy homeworks then
     text <- parse_status homeworks ;;
     set_message text ;;
     previous <- get_previous_message ;;
     if negb (String.eqb text previous) then
       send_message_any w text ;;
       set_previous_message text
     else ret tt
   else logger_debug "В ответе отсутствует новый статус") ;;
  date <- response_get "current_date" response ;;
  set_current_timestamp date.

Definition handler_any (w : open_world) (error : pyexn) : io unit :=
  set_message ("Сбой в работе программы: " +:+ str_exn error) ;;
  text <- get_message ;;
  logger_error text ;;
  previous <- get_previous_message ;;
  if negb (String.eqb text previous) then
    send_message_any w text ;;
    set_previous_message text
  else ret tt.

Definition cycle_any (w : open_world) : io unit :=
  try_finally (try_except (try_body_any w) (handler_any w))
              (time_sleep RETRY_PERIOD).

(** [while True]: an exception that leaves a turn leaves the loop. *)
Fixpoint loop_any (ws : list open_world) : io unit :=
  match ws with
  | [] => ret tt
  | w :: ws' => cycle_any w ;; loop_any ws'
  end.

Definition main_any (telegram_Bot : option string -> option pyexn) (now : Z)
    (ws : list open_world) : io unit :=
  (if check_tokens then
     match telegram_Bot (TELEGRAM_TOKEN cfg) with
     | None => ret tt
     | Some e => fun σ => (inl e, σ)
     end
   else
     logger_critical "Отсутствует обязательная переменная окружения" ;;
     raise SystemExit "Программа принудительно остановлена.") ;;
  set_current_timestamp (PInt now) ;;
  set_previous_message "" ;;
  set_message "" ;;
  loop_any ws.

(** Every failure of a send in [w] is a [TelegramError]. *)
Definition telegram_only (w : open_world) : Prop :=
  ∀ text, uncaught w text = None.

(** ** Observations on runs *)

(** The state [σ] after the calls [evs] have been recorded. *)
Definition logged (evs : list event) (σ : machine) : machine :=
  Machine (current_timestamp σ) (previous_message σ) (message σ)
          (trace σ ++ evs).

(** What a computation returns or raises.  For the functions of the
    module this does not depend on the state they run in (lemmas
    [get_api_answer_run], [check_response_run], [parse_status_run]). *)
Definition outcome {A} (m : io A) : pyexn + A := fst (m boot).

(** The texts handed to [bot.send_message], in order. *)
Definition notifications (tr : list event) : list string :=
  omap (fun ev => match ev with SendMessage _ text => Some text | _ => None end) tr.

(** The calls one [send_message(bot, text)] makes. *)
Definition send_events (bot : string -> send_outcome) (text : string) : list event :=
  [Log INFO ("Бот отправил сообщение: " +:+ text);
   SendMessage (TELEGRAM_CHAT_ID cfg) text;
   match bot text with
   | Delivered => Log DEBUG ("Бот отправил сообщение: " +:+ text)
   | TelegramError error => Log ERROR ("Ошибка при отправке сообщения: " +:+ error)
   end].

(** The calls [get_api_answer] makes before it returns or raises. *)
Definition fetch_events (timestamp : pyval) : list event :=
  [Log INFO "Отправляем запрос к API Практикума";
   HttpGet ENDPOINT HEADERS_Authorization timestamp].

Definition validate_events : list event :=
  [Log INFO "Начинаем проверку ответа сервера"].

(** The message [main] builds from a caught exception. *)
Definition failure_message (error : pyexn) : string :=
  "Сбой в работе программы: " +:+ str_exn error.

(** An exception [e] is raised by the fetch, the validation or the
    translation step of a cycle that starts with cursor [timestamp]. *)
Inductive raises_in (w : world) (timestamp : pyval) (e : pyexn) : Prop :=
| raises_in_fetch :
    outcome (get_api_answer w timestamp) = inl e ->
    raises_in w timestamp e
| raises_in_validation response :
    outcome (get_api_answer w timestamp) = inr response ->
    outcome (check_response response) = inl e ->
    raises_in w timestamp e
| raises_in_translation response homework :
    outcome (get_api_answer w timestamp) = inr response ->
    outcome (check_response response) = inr homework ->
    truthy homework = true ->
    outcome (parse_status homework) = inl e ->
    raises_in w timestamp e.

(** A cycle that starts with cursor [timestamp] produces the message
    [text]: the translation of the first homework, or the failure message
    of the exception a step raised. *)
Inductive produces (w : world) (timestamp : pyval) (text : string) : Prop :=
| produces_status response homework :
    outcome (get_api_answer w timestamp) = inr response ->
    outcome (check_response response) = inr homework ->
    truthy homework = true ->
    outcome (parse_status homework) = inr text ->
    produces w timestamp text
| produces_failure e :
    raises_in w timestamp e ->
    text = failure_message e ->
    produces w timestamp text.

(** The block [if message != previous_message: send_message(bot, message);
    previous_message = message], as a function on states. *)
Definition notified (bot : string -> send_outcome) (text : string)
    (σ : machine) : machine :=
  if String.eqb text (previous_message σ) then σ
  else Machine (current_timestamp σ) text (message σ)
               (trace σ ++ send_events bot text).

Definition with_message (text : string) (σ : machine) : machine :=
  Machine (current_timestamp σ) (previous_message σ) text (trace σ).

Definition with_timestamp (v : pyval) (σ : machine) : machine :=
  Machine v (previous_message σ) (message σ) (trace σ).

(** The three ways through a cycle (exhaustive: lemma [cycle_paths]). *)
Inductive cycle_path (w : world) (σ : machine) : Prop :=
| path_failure e :
    raises_in w (current_timestamp σ) e -> cycle_path w σ
| path_no_record d homework :
    outcome (get_api_answer w (current_timestamp σ)) = inr (PDict d) ->
    outcome (check_response (PDict d)) = inr homework ->
    truthy homework = false ->
    cycle_path w σ
| path_status d homework text :
    outcome (get_api_answer w (current_timestamp σ)) = inr (PDict d) ->
    outcome (check_response (PDict d)) = inr homework ->
    truthy homework = true ->
    outcome (parse_status homework) = inr text ->
    cycle_path w σ.

(** The [from_date] of the requests made, in order. *)
Definition requests (tr : list event) : list pyval :=
  omap (fun ev => match ev with HttpGet _ _ from_date => Some from_date | _ => None end) tr.

(** The durations handed to [time.sleep], in order. *)
Definition sleeps (tr : list event) : list Z :=
  omap (fun ev => match ev with Sleep seconds => Some seconds | _ => None end) tr.



(** A cycle that starts with cursor [timestamp] finds no new status: the
    answer passes [check_response] and its first homework is falsy. *)
Definition finds_nothing (w : world) (timestamp : pyval) : Prop :=
  ∃ d homework,
    outcome (get_api_answer w timestamp) = inr (PDict d)
    ∧ outcome (check_response (PDict d)) = inr homework
    ∧ truthy homework = false.

(** Every turn of the run [ws] from [σ] finds no new status, each at the
    cursor it starts with. *)
Fixpoint nothing_found (ws : list world) (σ : machine) : Prop :=
  match ws with
  | [] => True
  | w :: ws' =>
      finds_nothing w (current_timestamp σ) ∧ nothing_found ws' (snd (cycle w σ))
  end.


(** ** The functions, step by step *)

Arguments String.append : simpl never.
Arguments String.eqb : simpl never.
Arguments fetch_events : simpl never.

Ltac io_unfold :=
  unfold logger_debug, logger_info, logger_error, logger_critical, time_sleep,
    emit, bind, ret, raise, get_current_timestamp, get_previous_message,
    get_message, set_current_timestamp, set_previous_message, set_message,
    logged in *.

Lemma logged_logged evs1 evs2 σ :
  logged evs2 (logged evs1 σ) = logged (evs1 ++ evs2) σ.
Proof. unfold logged; simpl. by rewrite app_assoc. Qed.

Lemma logged_nil σ : logged [] σ = σ.
Proof. destruct σ; unfold logged; simpl. by rewrite app_nil_r. Qed.

Lemma notifications_app tr1 tr2 :
  notifications (tr1 ++ tr2) = notifications tr1 ++ notifications tr2.
Proof. apply omap_app. Qed.

Lemma send_message_run bot text σ :
  send_message bot text σ = (inr tt, logged (send_events bot text) σ).
Proof.
  unfold send_message, send_events. io_unfold. simpl.
  destruct (bot text); simpl; by rewrite <- !app_assoc.
Qed.

Lemma get_api_answer_run w timestamp σ :
  get_api_answer w timestamp σ =
  (outcome (get_api_answer w timestamp), logged (fetch_events timestamp) σ).
Proof.
  unfold outcome, get_api_answer, fetch_events. io_unfold. simpl.
  rewrite <- !app_assoc. simpl.
  destruct (requests_get w timestamp) as [?|code [?|body]]; simpl; try done;
    by destruct (negb (code =? HTTPStatus_OK)%Z).
Qed.

Lemma check_response_run response σ :
  check_response response σ =
  (outcome (check_response response), logged validate_events σ).
Proof.
  unfold outcome, check_response, validate_events. io_unfold. simpl.
  destruct response as [| | | | |?|d]; simpl; try done.
  destruct (negb (dict_contains "homeworks" d) || negb (dict_contains "current_date" d));
    simpl; try done.
  destruct (dict_get "homeworks" d) as [| | | | |items|?]; simpl; try done.
  by destruct (items !! 0%nat).
Qed.

Lemma parse_status_run homework σ :
  parse_status homework σ = (outcome (parse_status homework), σ).
Proof.
  unfold outcome, parse_status. io_unfold.
  destruct homework as [| | | | |?|d]; simpl; try done.
  destruct (negb (dict_contains "homework_name" d)); simpl; try done.
  destruct (negb (dict_contains "status" d)); simpl; try done.
  unfold verdicts_lookup.
  destruct (dict_get "status" d) as [| | | |s| |]; simpl; try done.
  by destruct (HOMEWORK_VERDICTS !! s).
Qed.

(** ** One turn of the loop, path by path *)

Lemma handler_run w e σ :
  handler w e σ =
  (inr tt,
   notified (bot_send_message w) (failure_message e)
     (logged [Log ERROR (failure_message e)]
        (with_message (failure_message e) σ))).
Proof.
  unfold handler, notified, with_message. io_unfold. simpl.
  fold (failure_message e).
  destruct (String.eqb (failure_message e) (previous_message σ)); simpl; [done|].
  by rewrite send_message_run.
Qed.

Lemma check_response_dict response homework :
  outcome (check_response response) = inr homework ->
  ∃ d, response = PDict d.
Proof.
  destruct response; try (by eauto); discriminate.
Qed.

Lemma try_body_fetch_raises w σ e :
  outcome (get_api_answer w (current_timestamp σ)) = inl e ->
  try_body w σ = (inl e, logged (fetch_events (current_timestamp σ)) σ).
Proof.
  intros H. unfold try_body, bind at 1 2, get_current_timestamp.
  by rewrite get_api_answer_run, H.
Qed.

Lemma try_body_validation_raises w σ response e :
  outcome (get_api_answer w (current_timestamp σ)) = inr response ->
  outcome (check_response response) = inl e ->
  try_body w σ =
  (inl e, logged (fetch_events (current_timestamp σ) ++ validate_events) σ).
Proof.
  intros Hf Hv. unfold try_body, bind at 1 2 3, get_current_timestamp.
  by rewrite get_api_answer_run, Hf, check_response_run, Hv, logged_logged.
Qed.

Lemma try_body_translation_raises w σ response homework e :
  outcome (get_api_answer w (current_timestamp σ)) = inr response ->
  outcome (check_response response) = inr homework ->
  truthy homework = true ->
  outcome (parse_status homework) = inl e ->
  try_body w σ =
  (inl e, logged (fetch_events (current_timestamp σ) ++ validate_events) σ).
Proof.
  intros Hf Hv Ht Hp.
  unfold try_body, bind at 1 2 3 4, get_current_timestamp.
  rewrite get_api_answer_run, Hf, check_response_run, Hv, Ht.
  unfold bind at 1. by rewrite parse_status_run, Hp, logged_logged.
Qed.

Lemma try_body_no_record w σ d homework :
  outcome (get_api_answer w (current_timestamp σ)) = inr (PDict d) ->
  outcome (check_response (PDict d)) = inr homework ->
  truthy homework = false ->
  try_body w σ =
  (inr tt,
   with_timestamp (dict_get "current_date" d)
     (logged (fetch_events (current_timestamp σ) ++ validate_events ++
              [Log DEBUG "В ответе отсутствует новый статус"]) σ)).
Proof.
  intros Hf Hv Ht.
  unfold try_body, bind at 1 2 3 4, get_current_timestamp.
  rewrite get_api_answer_run, Hf, check_response_run, Hv, Ht.
  unfold with_timestamp. io_unfold. simpl. by rewrite <- !app_assoc.
Qed.

Lemma try_body_status w σ d homework text :
  outcome (get_api_answer w (current_timestamp σ)) = inr (PDict d) ->
  outcome (check_response (PDict d)) = inr homework ->
  truthy homework = true ->
  outcome (parse_status homework) = inr text ->
  try_body w σ =
  (inr tt,
   with_timestamp (dict_get "current_date" d)
     (notified (bot_send_message w) text
        (with_message text
           (logged (fetch_events (current_timestamp σ) ++ validate_events) σ)))).
Proof.
  intros Hf Hv Ht Hp.
  unfold try_body, bind at 1 2 3 4, get_current_timestamp.
  rewrite get_api_answer_run, Hf, check_response_run, Hv, Ht.
  unfold bind at 1. rewrite parse_status_run, Hp.
  unfold with_timestamp, notified, with_message. io_unfold. simpl.
  destruct (String.eqb text (previous_message σ)); simpl.
  - by rewrite <- !app_assoc.
  - rewrite send_message_run. unfold logged; simpl. by rewrite <- !app_assoc.
Qed.

Lemma cycle_of_return w σ σ1 :
  try_body w σ = (inr tt, σ1) ->
  cycle w σ = (inr tt, logged [Sleep RETRY_PERIOD] σ1).
Proof.
  intros H. unfold cycle, try_finally, try_except. rewrite H. by io_unfold.
Qed.

Lemma cycle_of_raise w σ σ1 e :
  try_body w σ = (inl e, σ1) ->
  is_Exception (exn_class_of e) = true ->
  cycle w σ =
  (inr tt,
   logged [Sleep RETRY_PERIOD]
     (notified (bot_send_message w) (failure_message e)
        (logged [Log ERROR (failure_message e)]
           (with_message (failure_message e) σ1)))).
Proof.
  intros H Hcls. unfold cycle, try_finally, try_except.
  rewrite H, Hcls, handler_run. by io_unfold.
Qed.

(** Whatever a step raises is an [Exception], so [except Exception]
    catches it. *)
Lemma get_api_answer_Exception w timestamp e :
  outcome (get_api_answer w timestamp) = inl e ->
  is_Exception (exn_class_of e) = true.
Proof.
  unfold outcome, get_api_answer. io_unfold. simpl.
  destruct (requests_get w timestamp) as [?|code [?|body]]; simpl;
    try destruct (negb (code =? HTTPStatus_OK)%Z); simpl;
    intros [= <-] || discriminate; done.
Qed.

Lemma check_response_Exception response e :
  outcome (check_response response) = inl e ->
  is_Exception (exn_class_of e) = true.
Proof.
  unfold outcome, check_response. io_unfold. simpl.
  destruct response as [| | | | |?|d]; simpl; try (by intros [= <-]).
  destruct (negb (dict_contains "homeworks" d) || negb (dict_contains "current_date" d));
    simpl; try (by intros [= <-]).
  destruct (dict_get "homeworks" d) as [| | | | |items|?]; simpl;
    try (by intros [= <-]).
  destruct (items !! 0%nat); simpl; by (intros [= <-] || discriminate).
Qed.

Lemma parse_status_Exception homework e :
  outcome (parse_status homework) = inl e ->
  is_Exception (exn_class_of e) = true.
Proof.
  unfold outcome, parse_status. io_unfold.
  destruct homework as [| | | | |?|d]; simpl; try (by intros [= <-]).
  destruct (negb (dict_contains "homework_name" d)); simpl; try (by intros [= <-]).
  destruct (negb (dict_contains "status" d)); simpl; try (by intros [= <-]).
  unfold verdicts_lookup.
  destruct (dict_get "status" d) as [| | | |s| |]; simpl; try (by intros [= <-]).
  destruct (HOMEWORK_VERDICTS !! s); by (intros [= <-] || discriminate).
Qed.

Lemma raises_in_Exception w timestamp e :
  raises_in w timestamp e -> is_Exception (exn_class_of e) = true.
Proof.
  intros [H | ? _ H | ? ? _ _ _ H];
    eauto using get_api_answer_Exception, check_response_Exception,
      parse_status_Exception.
Qed.

(** A step that raises leaves the variables of [main] as they were and
    only extends the trace: the request, then calls that are not sends. *)
Lemma try_body_raises w σ e :
  raises_in w (current_timestamp σ) e ->
  ∃ evs,
    try_body w σ =
    (inl e, logged (fetch_events (current_timestamp σ) ++ evs) σ)
    ∧ notifications evs = [].
Proof.
  intros [H | ? Hf H | ? ? Hf Hv Ht H].
  - exists []. rewrite app_nil_r. split; [by apply try_body_fetch_raises|done].
  - eexists. split; [by eapply try_body_validation_raises|done].
  - eexists. split; [by eapply try_body_translation_raises|done].
Qed.

(** The paths of a cycle are exhaustive. *)
Lemma cycle_paths w σ : cycle_path w σ.
Proof.
  destruct (outcome (get_api_answer w (current_timestamp σ))) as [e|response] eqn:Hf.
  { eapply path_failure. by apply raises_in_fetch. }
  destruct (outcome (check_response response)) as [e|homework] eqn:Hv.
  { eapply path_failure. by eapply raises_in_validation. }
  destruct (check_response_dict _ _ Hv) as [d ->].
  destruct (truthy homework) eqn:Ht.
  2: { by eapply path_no_record. }
  destruct (outcome (parse_status homework)) as [e|text] eqn:Hp.
  - eapply path_failure. by eapply raises_in_translation.
  - by eapply path_status.
Qed.

(** ** The functions of the module *)

Lemma dict_contains_Some key (d : gmap string pyval) v :
  d !! key = Some v -> dict_contains key d = true.
Proof. unfold dict_contains. by intros ->. Qed.

Lemma dict_contains_None key (d : gmap string pyval) :
  d !! key = None -> dict_contains key d = false.
Proof. unfold dict_contains. by intros ->. Qed.

Lemma dict_get_Some key (d : gmap string pyval) v :
  d !! key = Some v -> dict_get key d = v.
Proof. unfold dict_get. by intros ->. Qed.




(** C7. For a homework dict with 'homework_name' and a 'status' that is
    one of approved, reviewing, rejected, [parse_status] returns the text
    'Изменился статус проверки работы "<homework_name>". <verdict text>' with
    the verdict of that status from [HOMEWORK_VERDICTS], and changes no
    state.  The table is a constant with exactly these three keys. *)
Theorem parse_status_message (d : gmap string pyval) (name : pyval) (status : string) :
  d !! "homework_name" = Some name ->
  d !! "status" = Some (PStr status) ->
  status ∈ ["approved"; "reviewing"; "rejected"] ->
  ∃ verdict,
    HOMEWORK_VERDICTS !! status = Some verdict
    ∧ (∀ σ, parse_status (PDict d) σ =
            (inr ("Изменился статус проверки работы " +:+ dq +:+
                  py_str name +:+ dq +:+ ". " +:+ verdict), σ))
    ∧ (∀ text, name = PStr text -> py_str name = text)
    ∧ dom HOMEWORK_VERDICTS = {["approved"; "reviewing"; "rejected"]}
    ∧ size HOMEWORK_VERDICTS = 3%nat.
Proof.
  intros Hn Hs Hin.
  assert (∃ verdict, HOMEWORK_VERDICTS !! status = Some verdict) as [verdict Hv].
  { rewrite !elem_of_cons in Hin.
    destruct Hin as [->|[->|[->|Hin]]]; [by eexists..|].
    by apply elem_of_nil in Hin. }
  exists verdict. split; [done|]. split; [|split; [|split]].
  - intros σ. rewrite parse_status_run. f_equal.
    unfold outcome, parse_status. io_unfold.
    rewrite (dict_contains_Some _ _ _ Hn), (dict_contains_Some _ _ _ Hs).
    rewrite (dict_get_Some _ _ _ Hn), (dict_get_Some _ _ _ Hs). simpl.
    by rewrite Hv.
  - by intros text ->.
  - unfold HOMEWORK_VERDICTS. rewrite !dom_insert_L, dom_empty_L. set_solver.
  - unfold HOMEWORK_VERDICTS. by rewrite !map_size_insert_None, map_size_empty.
Qed.

(** ** What a cycle leaves behind *)

Lemma trace_logged evs σ : trace (logged evs σ) = trace σ ++ evs.
Proof. done. Qed.
Lemma previous_message_logged evs σ :
  previous_message (logged evs σ) = previous_message σ.
Proof. done. Qed.
Lemma current_timestamp_logged evs σ :
  current_timestamp (logged evs σ) = current_timestamp σ.
Proof. done. Qed.
Lemma message_logged evs σ : message (logged evs σ) = message σ.
Proof. done. Qed.
Lemma trace_with_message text σ : trace (with_message text σ) = trace σ.
Proof. done. Qed.
Lemma previous_message_with_message text σ :
  previous_message (with_message text σ) = previous_message σ.
Proof. done. Qed.
Lemma current_timestamp_with_message text σ :
  current_timestamp (with_message text σ) = current_timestamp σ.
Proof. done. Qed.
Lemma message_with_message text σ : message (with_message text σ) = text.
Proof. done. Qed.
Lemma trace_with_timestamp v σ : trace (with_timestamp v σ) = trace σ.
Proof. done. Qed.
Lemma previous_message_with_timestamp v σ :
  previous_message (with_timestamp v σ) = previous_message σ.
Proof. done. Qed.
Lemma current_timestamp_with_timestamp v σ :
  current_timestamp (with_timestamp v σ) = v.
Proof. done. Qed.
Lemma message_with_timestamp v σ : message (with_timestamp v σ) = message σ.
Proof. done. Qed.

Lemma notified_previous_message bot text σ :
  previous_message (notified bot text σ) = text.
Proof.
  unfold notified. destruct (String.eqb_spec text (previous_message σ)); by simpl.
Qed.

Lemma notified_current_timestamp bot text σ :
  current_timestamp (notified bot text σ) = current_timestamp σ.
Proof. unfold notified. by destruct (String.eqb text (previous_message σ)). Qed.

Lemma notified_message bot text σ :
  message (notified bot text σ) = message σ.
Proof. unfold notified. by destruct (String.eqb text (previous_message σ)). Qed.

Lemma notifications_fetch_events timestamp :
  notifications (fetch_events timestamp) = [].
Proof. done. Qed.

Lemma notifications_validate_events : notifications validate_events = [].
Proof. done. Qed.

Lemma notifications_send_events bot text :
  notifications (send_events bot text) = [text].
Proof. unfold send_events. simpl. by destruct (bot text). Qed.

Lemma notified_notifications bot text σ :
  notifications (trace (notified bot text σ)) =
  notifications (trace σ) ++
  (if String.eqb text (previous_message σ) then [] else [text]).
Proof.
  unfold notified. destruct (String.eqb text (previous_message σ)); simpl.
  - by rewrite app_nil_r.
  - by rewrite notifications_app, notifications_send_events.
Qed.

Create Rewrite HintDb machine.

Hint Rewrite trace_logged previous_message_logged current_timestamp_logged
  message_logged trace_with_message previous_message_with_message
  current_timestamp_with_message message_with_message trace_with_timestamp
  previous_message_with_timestamp current_timestamp_with_timestamp
  message_with_timestamp notified_previous_message notified_current_timestamp
  notified_message notified_notifications notifications_app
  notifications_fetch_events notifications_validate_events : machine.

Lemma cycle_failure w σ e :
  raises_in w (current_timestamp σ) e ->
  ∃ evs,
    notifications evs = [] ∧
    cycle w σ =
    (inr tt,
     logged [Sleep RETRY_PERIOD]
       (notified (bot_send_message w) (failure_message e)
          (logged [Log ERROR (failure_message e)]
             (with_message (failure_message e)
                (logged (fetch_events (current_timestamp σ) ++ evs) σ))))).
Proof.
  intros H. destruct (try_body_raises _ _ _ H) as (evs & Hrun & Hevs).
  exists evs. split; [done|].
  eapply cycle_of_raise; [done|]. by eapply raises_in_Exception.
Qed.

Lemma cycle_no_record w σ d homework :
  outcome (get_api_answer w (current_timestamp σ)) = inr (PDict d) ->
  outcome (check_response (PDict d)) = inr homework ->
  truthy homework = false ->
  cycle w σ =
  (inr tt,
   logged [Sleep RETRY_PERIOD]
     (with_timestamp (dict_get "current_date" d)
        (logged (fetch_events (current_timestamp σ) ++ validate_events ++
                 [Log DEBUG "В ответе отсутствует новый статус"]) σ))).
Proof.
  intros Hf Hv Ht. apply cycle_of_return. by eapply try_body_no_record.
Qed.

Lemma cycle_status w σ d homework text :
  outcome (get_api_answer w (current_timestamp σ)) = inr (PDict d) ->
  outcome (check_response (PDict d)) = inr homework ->
  truthy homework = true ->
  outcome (parse_status homework) = inr text ->
  cycle w σ =
  (inr tt,
   logged [Sleep RETRY_PERIOD]
     (with_timestamp (dict_get "current_date" d)
        (notified (bot_send_message w) text
           (with_message text
              (logged (fetch_events (current_timestamp σ) ++ validate_events) σ))))).
Proof.
  intros Hf Hv Ht Hp. apply cycle_of_return. by eapply try_body_status.
Qed.

(** A cycle always comes to its end: nothing escapes the [try]. *)
Lemma cycle_returns w σ : fst (cycle w σ) = inr tt.
Proof.
  destruct (cycle_paths w σ) as [e H | d h Hf Hv Ht | d h text Hf Hv Ht Hp].
  - destruct (cycle_failure _ _ _ H) as (evs & _ & ->). done.
  - by erewrite cycle_no_record.
  - by erewrite cycle_status.
Qed.

(** A cycle that produces [text] leaves it as the last-sent message and
    has sent it once if it was new, not at all otherwise. *)
Lemma cycle_produces w σ text :
  produces w (current_timestamp σ) text ->
  previous_message (snd (cycle w σ)) = text
  ∧ notifications (trace (snd (cycle w σ))) =
    notifications (trace σ) ++
    (if String.eqb text (previous_message σ) then [] else [text]).
Proof.
  intros [response homework Hf Hv Ht Hp | e H ->].
  - destruct (check_response_dict _ _ Hv) as [d ->].
    erewrite cycle_status by done. cbn [snd].
    autorewrite with machine. split; [done|]. simpl. by rewrite !app_nil_r.
  - destruct (cycle_failure _ _ _ H) as (evs & Hevs & ->). cbn [snd].
    autorewrite with machine. split; [done|].
    rewrite Hevs. simpl. by rewrite !app_nil_r.
Qed.

Lemma notified_trace_prefix bot text σ :
  ∃ evs, trace (notified bot text σ) = trace σ ++ evs.
Proof.
  unfold notified. destruct (String.eqb text (previous_message σ)); simpl.
  - exists []. by rewrite app_nil_r.
  - by eexists.
Qed.

(** Every cycle opens with the request, made with the cursor as
    [from_date]. *)
Lemma cycle_trace_prefix w σ :
  ∃ evs,
    trace (snd (cycle w σ)) =
    trace σ ++ fetch_events (current_timestamp σ) ++ evs.
Proof.
  destruct (cycle_paths w σ) as [e H | d h Hf Hv Ht | d h text Hf Hv Ht Hp].
  - destruct (cycle_failure _ _ _ H) as (evs & _ & ->). cbn [snd].
    rewrite trace_logged.
    match goal with
    | |- context [trace (notified ?b ?t ?s)] =>
        destruct (notified_trace_prefix b t s) as [evs' ->]
    end.
    autorewrite with machine. eexists. by rewrite <- !app_assoc.
  - erewrite cycle_no_record by done. cbn [snd].
    autorewrite with machine. eexists. by rewrite <- !app_assoc.
  - erewrite cycle_status by done. cbn [snd].
    rewrite trace_logged, trace_with_timestamp.
    match goal with
    | |- context [trace (notified ?b ?t ?s)] =>
        destruct (notified_trace_prefix b t s) as [evs' ->]
    end.
    autorewrite with machine. eexists. by rewrite <- !app_assoc.
Qed.

Lemma loop_cons w ws σ : loop (w :: ws) σ = loop ws (snd (cycle w σ)).
Proof.
  simpl. unfold bind. pose proof (cycle_returns w σ) as H.
  destruct (cycle w σ) as [r σ']. simpl in *. by subst.
Qed.

Lemma check_tokens_spec :
  check_tokens = true ↔
  is_Some (PRACTICUM_TOKEN cfg) ∧ is_Some (TELEGRAM_TOKEN cfg)
  ∧ is_Some (TELEGRAM_CHAT_ID cfg).
Proof.
  unfold check_tokens. simpl.
  destruct (PRACTICUM_TOKEN cfg), (TELEGRAM_TOKEN cfg), (TELEGRAM_CHAT_ID cfg);
    simpl; split; try done; intros (H1 & H2 & H3);
    by (destruct H1 || destruct H2 || destruct H3).
Qed.

(** With a credential unset, [main] logs at critical level and raises
    [SystemExit] before anything else happens. *)
Lemma main_exits_without_credentials telegram_Bot now ws σ :
  check_tokens = false ->
  main telegram_Bot now ws σ =
  (inl (Raise SystemExit "Программа принудительно остановлена."),
   logged [Log CRITICAL "Отсутствует обязательная переменная окружения"] σ).
Proof. intros H. unfold main. rewrite H. by io_unfold. Qed.

(** ** The claims on the loop *)

(** C2. When the fetch, the validation or the translation of a cycle
    raises an exception, the cycle builds the message 'Сбой в работе
    программы: <str(error)>', logs it as an error, sends it unless it
    equals the last-sent message, records it as last-sent, and leaves the
    cursor as it was; the next cycle starts from that state. *)
Theorem cycle_on_exception (w : world) (σ : machine) (e : pyexn) :
  raises_in w (current_timestamp σ) e ->
  let text := "Сбой в работе программы: " +:+ str_exn e in
  ∃ σ',
    cycle w σ = (inr tt, σ')
    ∧ message σ' = text
    ∧ Log ERROR text ∈ trace σ'
    ∧ notifications (trace σ') =
      notifications (trace σ) ++
      (if String.eqb text (previous_message σ) then [] else [text])
    ∧ previous_message σ' = text
    ∧ current_timestamp σ' = current_timestamp σ
    ∧ ∀ ws, loop (w :: ws) σ = loop ws σ'.
Proof.
  intros H text. fold (failure_message e) in text. subst text.
  destruct (cycle_failure _ _ _ H) as (evs & Hevs & Hrun).
  eexists. split; [exact Hrun|].
  assert (Hp : produces w (current_timestamp σ) (failure_message e))
    by by eapply produces_failure.
  destruct (cycle_produces _ _ _ Hp) as [Hprev Hsent].
  rewrite Hrun in Hprev, Hsent. cbn [snd] in Hprev, Hsent.
  repeat split.
  - by autorewrite with machine.
  - rewrite trace_logged. apply elem_of_app. left.
    match goal with
    | |- context [trace (notified ?b ?t ?s)] =>
        destruct (notified_trace_prefix b t s) as [evs' ->]
    end.
    rewrite trace_logged, !elem_of_app. left. right.
    by apply list_elem_of_singleton.
  - exact Hsent.
  - exact Hprev.
  - by autorewrite with machine.
  - intros ws. by rewrite loop_cons, Hrun.
Qed.

(** C1, what the code does on an empty 'homeworks' list.  For a response
    dict with both keys whose 'homeworks' is the empty list,
    [check_response] does not return: [homeworks[0]] raises [IndexError].
    The cycle therefore takes the failure path: it logs the failure
    message as an error, sends it unless it equals the last-sent message,
    and leaves the cursor where it was instead of moving it to
    'current_date'. *)
Theorem empty_homeworks_is_a_failure (d : gmap string pyval) (date : pyval) :
  d !! "homeworks" = Some (PList []) ->
  d !! "current_date" = Some date ->
  outcome (check_response (PDict d)) =
  inl (Raise IndexError "list index out of range")
  ∧ ∀ w σ,
      outcome (get_api_answer w (current_timestamp σ)) = inr (PDict d) ->
      let text := "Сбой в работе программы: " +:+ "list index out of range" in
      ∃ σ',
        cycle w σ = (inr tt, σ')
        ∧ Log ERROR text ∈ trace σ'
        ∧ notifications (trace σ') =
          notifications (trace σ) ++
          (if String.eqb text (previous_message σ) then [] else [text])
        ∧ current_timestamp σ' = current_timestamp σ.
Proof.
  intros Hh Hd.
  assert (Hv : outcome (check_response (PDict d)) =
               inl (Raise IndexError "list index out of range")).
  { unfold outcome, check_response. io_unfold. simpl.
    rewrite (dict_contains_Some _ _ _ Hh), (dict_contains_Some _ _ _ Hd).
    by rewrite (dict_get_Some _ _ _ Hh). }
  split; [done|]. intros w σ Hf text.
  destruct (cycle_on_exception w σ (Raise IndexError "list index out of range"))
    as (σ' & Hrun & _ & Hlog & Hsent & _ & Hts & _).
  { by eapply raises_in_validation. }
  exists σ'. repeat split; done.
Qed.


Lemma send_message_any_caught w text σ :
  uncaught w text = None ->
  send_message_any w text σ = send_message (bot_send_message (answers w)) text σ.
Proof. intros H. unfold send_message_any, send_message, bind. by rewrite H. Qed.

Lemma try_body_any_caught w σ :
  telegram_only w -> try_body_any w σ = try_body (answers w) σ.
Proof.
  intros Hw. unfold try_body_any, try_body, bind, get_current_timestamp.
  destruct (get_api_answer (answers w) (current_timestamp σ) σ) as [[e|response] σ1];
    [done|].
  destruct (check_response response σ1) as [[e|homeworks] σ2]; [done|].
  destruct (truthy homeworks); [|done].
  destruct (parse_status homeworks σ2) as [[e|text] σ3]; [done|].
  unfold set_message, get_previous_message. simpl.
  destruct (negb (String.eqb text (previous_message σ3))); [|done].
  by rewrite send_message_any_caught.
Qed.

Lemma handler_any_caught w e σ :
  telegram_only w -> handler_any w e σ = handler (answers w) e σ.
Proof.
  intros Hw. unfold handler_any, handler, bind, set_message, get_message,
    logger_error, emit, get_previous_message. simpl.
  destruct (negb (String.eqb ("Сбой в работе программы: " +:+ str_exn e)
                             (previous_message σ))); [|done].
  by rewrite send_message_any_caught.
Qed.

(** Where the bot raises nothing but [TelegramError], the loop is the one
    of the world [answers]. *)
Lemma cycle_any_caught w σ :
  telegram_only w -> cycle_any w σ = cycle (answers w) σ.
Proof.
  intros Hw. unfold cycle_any, cycle, try_finally, try_except.
  rewrite try_body_any_caught by done.
  destruct (try_body (answers w) σ) as [[e|[]] σ1]; [|done].
  destruct (is_Exception (exn_class_of e)); [|done].
  by rewrite handler_any_caught.
Qed.

Lemma loop_any_caught ws σ :
  (∀ w, w ∈ ws -> telegram_only w) ->
  loop_any ws σ = loop (answers <$> ws) σ.
Proof.
  revert σ. induction ws as [|w ws IH]; intros σ Hws; [done|].
  simpl. unfold bind.
  rewrite cycle_any_caught by apply Hws, list_elem_of_here.
  destruct (cycle (answers w) σ) as [[e|[]] σ1]; [done|].
  apply IH. intros w' Hin. by apply Hws, list_elem_of_further.
Qed.

Lemma main_any_caught telegram_Bot now ws σ :
  (∀ w, w ∈ ws -> telegram_only w) ->
  main_any telegram_Bot now ws σ = main telegram_Bot now (answers <$> ws) σ.
Proof.
  intros Hws. unfold main_any, main, bind at 1 5.
  destruct check_tokens; [|done].
  destruct (telegram_Bot (TELEGRAM_TOKEN cfg)); [done|].
  unfold ret, bind, set_current_timestamp, set_previous_message, set_message.
  by apply loop_any_caught.
Qed.

(** C8, as the code has it.  When [bot.send_message] fails with a
    [TelegramError], [send_message] logs the error and returns normally.
    In a world where the sends raise nothing else, no cycle raises, the
    loop goes on to its next turn, and a cycle sends at most one message,
    which is the message its fetch, validation and translation steps
    produced: a failed send is neither repeated nor reported. *)
Theorem telegram_error_is_swallowed :
  (∀ w text error σ,
     uncaught w text = None ->
     bot_send_message (answers w) text = TelegramError error ->
     send_message_any w text σ =
     (inr tt,
      logged [Log INFO ("Бот отправил сообщение: " +:+ text);
              SendMessage (TELEGRAM_CHAT_ID cfg) text;
              Log ERROR ("Ошибка при отправке сообщения: " +:+ error)] σ))
  ∧ (∀ w σ,
       telegram_only w ->
       fst (cycle_any w σ) = inr tt
       ∧ ∃ sent,
           notifications (trace (snd (cycle_any w σ))) =
           notifications (trace σ) ++ sent
           ∧ (length sent ≤ 1)%nat
           ∧ ∀ text, text ∈ sent ->
                     produces (answers w) (current_timestamp σ) text)
  ∧ (∀ w ws σ,
       telegram_only w ->
       loop_any (w :: ws) σ = loop_any ws (snd (cycle_any w σ))).
Proof.
  split; [|split].
  - intros w text error σ Hu H. rewrite send_message_any_caught by done.
    rewrite send_message_run. unfold send_events. by rewrite H.
  - intros w σ Hw. rewrite cycle_any_caught by done.
    split; [apply cycle_returns|].
    destruct (cycle_paths (answers w) σ)
      as [e H | d h Hf Hv Ht | d h text Hf Hv Ht Hp].
    + assert (Hp : produces (answers w) (current_timestamp σ) (failure_message e))
        by by eapply produces_failure.
      destruct (cycle_produces _ _ _ Hp) as [_ ->].
      eexists. split; [done|].
      destruct (String.eqb (failure_message e) (previous_message σ)); simpl.
      * split; [lia|]. by intros text ?%elem_of_nil.
      * split; [lia|]. by intros text ->%list_elem_of_singleton.
    + erewrite cycle_no_record by done. cbn [snd].
      exists []. autorewrite with machine. simpl.
      rewrite !app_nil_r. split; [done|]. split; [lia|].
      by intros text ?%elem_of_nil.
    + assert (Hpr : produces (answers w) (current_timestamp σ) text)
        by by eapply produces_status.
      destruct (cycle_produces _ _ _ Hpr) as [_ ->].
      eexists. split; [done|].
      destruct (String.eqb text (previous_message σ)); simpl.
      * split; [lia|]. by intros ? ?%elem_of_nil.
      * split; [lia|]. by intros ? ->%list_elem_of_singleton.
  - intros w ws σ Hw. simpl. unfold bind.
    rewrite cycle_any_caught by done.
    pose proof (cycle_returns (answers w) σ) as Hret.
    destruct (cycle (answers w) σ) as [r σ1]. simpl in *. by subst.
Qed.


(** C10, as the code has it.  [check_tokens] only asks whether each
    credential is set: it returns [True] exactly when all three are.  So
    when all three are set and one or more of them is the empty string it
    returns [True], and [main] does not stop with [SystemExit]: it builds
    the bot from [TELEGRAM_TOKEN] as it is.  When the constructor returns,
    [main] enters the loop, whose request carries the credentials as they
    are; when the constructor raises, [main] ends with that exception
    before the loop. *)
Theorem check_tokens_only_tests_presence :
  (check_tokens = true ↔
   is_Some (PRACTICUM_TOKEN cfg) ∧ is_Some (TELEGRAM_TOKEN cfg)
   ∧ is_Some (TELEGRAM_CHAT_ID cfg))
  ∧ ∀ practicum telegram chat,
      PRACTICUM_TOKEN cfg = Some practicum ->
      TELEGRAM_TOKEN cfg = Some telegram ->
      TELEGRAM_CHAT_ID cfg = Some chat ->
      practicum = "" ∨ telegram = "" ∨ chat = "" ->
      check_tokens = true
      ∧ HEADERS_Authorization = "OAuth " +:+ practicum
      ∧ ∀ telegram_Bot now ws σ,
          (telegram_Bot (Some telegram) = None ->
           main telegram_Bot now ws σ =
           loop ws (Machine (PInt now) "" "" (trace σ)))
          ∧ (∀ e, telegram_Bot (Some telegram) = Some e ->
             main telegram_Bot now ws σ = (inl e, σ)).
Proof.
  split; [apply check_tokens_spec|].
  intros practicum telegram chat Hp Ht Hc _.
  assert (Hok : check_tokens = true).
  { apply check_tokens_spec. rewrite Hp, Ht, Hc. eauto. }
  split; [done|]. split.
  - unfold HEADERS_Authorization. by rewrite Hp.
  - intros telegram_Bot now ws σ. split.
    + intros Hbot. unfold main. rewrite Hok, Ht, Hbot. by io_unfold.
    + intros e Hbot. unfold main. rewrite Hok, Ht, Hbot. by io_unfold.
Qed.

(** ** Further properties of the functions *)

Lemma get_api_answer_ok w timestamp body :
  requests_get w timestamp = Response 200 (inr body) ->
  outcome (get_api_answer w timestamp) = inr body.
Proof.
  intros H. unfold outcome, get_api_answer. io_unfold. simpl. by rewrite H.
Qed.

Lemma check_response_first (d : gmap string pyval) first rest date :
  d !! "homeworks" = Some (PList (first :: rest)) ->
  d !! "current_date" = Some date ->
  outcome (check_response (PDict d)) = inr first.
Proof.
  intros Hh Hd. unfold outcome, check_response. io_unfold. simpl.
  rewrite (dict_contains_Some _ _ _ Hh), (dict_contains_Some _ _ _ Hd).
  by rewrite (dict_get_Some _ _ _ Hh).
Qed.

Lemma parse_status_ok (d : gmap string pyval) name status verdict :
  d !! "homework_name" = Some name ->
  d !! "status" = Some (PStr status) ->
  HOMEWORK_VERDICTS !! status = Some verdict ->
  outcome (parse_status (PDict d)) =
  inr ("Изменился статус проверки работы " +:+ dq +:+
       py_str name +:+ dq +:+ ". " +:+ verdict).
Proof.
  intros Hn Hs Hv. unfold outcome, parse_status. io_unfold.
  rewrite (dict_contains_Some _ _ _ Hn), (dict_contains_Some _ _ _ Hs).
  rewrite (dict_get_Some _ _ _ Hn), (dict_get_Some _ _ _ Hs). simpl.
  by rewrite Hv.
Qed.

(** X1. [check_response] hands back the first element of 'homeworks' and
    nothing else: the rest of the list and the value under 'current_date'
    play no part, and the element is returned as it is, whatever its
    type. *)
Theorem check_response_returns_first (d : gmap string pyval)
    (first : pyval) (rest : list pyval) (date : pyval) :
  d !! "homeworks" = Some (PList (first :: rest)) ->
  d !! "current_date" = Some date ->
  ∀ σ, check_response (PDict d) σ =
       (inr first, logged [Log INFO "Начинаем проверку ответа сервера"] σ).
Proof.
  intros Hh Hd σ. rewrite check_response_run.
  by erewrite check_response_first.
Qed.

(** X2. A 200 answer whose body does not decode makes [get_api_answer]
    raise the decoder's error as it is: it is not turned into the
    [ConnectionError] of a failed request.  The cycle reports it like any
    other failure and keeps the cursor. *)
Theorem undecodable_body_is_a_failure (w : world) (σ : machine) (description : string) :
  requests_get w (current_timestamp σ) = Response 200 (inl description) ->
  outcome (get_api_answer w (current_timestamp σ)) =
  inl (Raise JSONDecodeError description)
  ∧ ∃ σ',
      cycle w σ = (inr tt, σ')
      ∧ message σ' = "Сбой в работе программы: " +:+ description
      ∧ notifications (trace σ') =
        notifications (trace σ) ++
        (if String.eqb ("Сбой в работе программы: " +:+ description)
                       (previous_message σ)
         then [] else ["Сбой в работе программы: " +:+ description])
      ∧ current_timestamp σ' = current_timestamp σ.
Proof.
  intros H.
  assert (Hf : outcome (get_api_answer w (current_timestamp σ)) =
               inl (Raise JSONDecodeError description)).
  { unfold outcome, get_api_answer. io_unfold. simpl. by rewrite H. }
  split; [done|].
  assert (Hr : raises_in w (current_timestamp σ) (Raise JSONDecodeError description))
    by by apply raises_in_fetch.
  destruct (cycle_failure _ _ _ Hr) as (evs & Hevs & Hrun).
  assert (Hp : produces w (current_timestamp σ)
                 (failure_message (Raise JSONDecodeError description)))
    by by eapply produces_failure.
  destruct (cycle_produces _ _ _ Hp) as [_ Hsent].
  rewrite Hrun in Hsent. cbn [snd] in Hsent.
  eexists. split; [exact Hrun|]. repeat split.
  - by autorewrite with machine.
  - exact Hsent.
  - by autorewrite with machine.
Qed.

(** ** Further properties of the loop *)

Lemma requests_app tr1 tr2 : requests (tr1 ++ tr2) = requests tr1 ++ requests tr2.
Proof. apply omap_app. Qed.

Lemma sleeps_app tr1 tr2 : sleeps (tr1 ++ tr2) = sleeps tr1 ++ sleeps tr2.
Proof. apply omap_app. Qed.

Lemma requests_fetch_events timestamp :
  requests (fetch_events timestamp) = [timestamp].
Proof. done. Qed.

Lemma sleeps_fetch_events timestamp : sleeps (fetch_events timestamp) = [].
Proof. done. Qed.

Lemma requests_send_events bot text : requests (send_events bot text) = [].
Proof. unfold send_events. simpl. by destruct (bot text). Qed.

Lemma sleeps_send_events bot text : sleeps (send_events bot text) = [].
Proof. unfold send_events. simpl. by destruct (bot text). Qed.

Lemma notified_requests bot text σ :
  requests (trace (notified bot text σ)) = requests (trace σ).
Proof.
  unfold notified. destruct (String.eqb text (previous_message σ)); simpl; [done|].
  by rewrite requests_app, requests_send_events, app_nil_r.
Qed.

Lemma notified_sleeps bot text σ :
  sleeps (trace (notified bot text σ)) = sleeps (trace σ).
Proof.
  unfold notified. destruct (String.eqb text (previous_message σ)); simpl; [done|].
  by rewrite sleeps_app, sleeps_send_events, app_nil_r.
Qed.

(** The calls a failing step has made: the request, and the validation's
    log line when the request went through. *)
Lemma try_body_raises_events w σ e :
  raises_in w (current_timestamp σ) e ->
  ∃ evs,
    try_body w σ =
    (inl e, logged (fetch_events (current_timestamp σ) ++ evs) σ)
    ∧ (evs = [] ∨ evs = validate_events).
Proof.
  intros [H | ? Hf H | ? ? Hf Hv Ht H].
  - exists []. rewrite app_nil_r. split; [by apply try_body_fetch_raises|by left].
  - eexists. split; [by eapply try_body_validation_raises|by right].
  - eexists. split; [by eapply try_body_translation_raises|by right].
Qed.

Lemma cycle_failure_events w σ e :
  raises_in w (current_timestamp σ) e ->
  ∃ evs,
    (evs = [] ∨ evs = validate_events) ∧
    cycle w σ =
    (inr tt,
     logged [Sleep RETRY_PERIOD]
       (notified (bot_send_message w) (failure_message e)
          (logged [Log ERROR (failure_message e)]
             (with_message (failure_message e)
                (logged (fetch_events (current_timestamp σ) ++ evs) σ))))).
Proof.
  intros H. destruct (try_body_raises_events _ _ _ H) as (evs & Hrun & Hevs).
  exists evs. split; [done|].
  eapply cycle_of_raise; [done|]. by eapply raises_in_Exception.
Qed.

Lemma cycle_requests_sleeps w σ :
  requests (trace (snd (cycle w σ))) = requests (trace σ) ++ [current_timestamp σ]
  ∧ sleeps (trace (snd (cycle w σ))) = sleeps (trace σ) ++ [RETRY_PERIOD]
  ∧ last (trace (snd (cycle w σ))) = Some (Sleep RETRY_PERIOD).
Proof.
  destruct (cycle_paths w σ) as [e H | d h Hf Hv Ht | d h text Hf Hv Ht Hp].
  - destruct (cycle_failure_events _ _ _ H) as (evs & Hevs & ->). cbn [snd].
    rewrite trace_logged, last_snoc, requests_app, sleeps_app.
    rewrite notified_requests, notified_sleeps.
    autorewrite with machine.
    rewrite !requests_app, !sleeps_app, requests_fetch_events, sleeps_fetch_events.
    destruct Hevs as [-> | ->]; simpl; by rewrite ?app_nil_r.
  - erewrite cycle_no_record by done. cbn [snd].
    rewrite trace_logged, last_snoc, requests_app, sleeps_app.
    autorewrite with machine.
    rewrite !requests_app, !sleeps_app, requests_fetch_events, sleeps_fetch_events.
    simpl. by rewrite ?app_nil_r.
  - erewrite cycle_status by done. cbn [snd].
    rewrite trace_logged, last_snoc, requests_app, sleeps_app.
    rewrite trace_with_timestamp, notified_requests, notified_sleeps.
    autorewrite with machine.
    rewrite !requests_app, !sleeps_app, requests_fetch_events, sleeps_fetch_events.
    simpl. by rewrite ?app_nil_r.
Qed.

Lemma loop_returns ws σ : fst (loop ws σ) = inr tt.
Proof.
  revert σ. induction ws as [|w ws IH]; intros σ; [done|].
  by rewrite loop_cons.
Qed.

(** X3. When a credential is not set, [main] logs at critical level and
    raises [SystemExit] at once: no bot is built, no request is made,
    nothing is sent and the process does not sleep. *)
Theorem main_stops_without_credentials :
  PRACTICUM_TOKEN cfg = None ∨ TELEGRAM_TOKEN cfg = None
  ∨ TELEGRAM_CHAT_ID cfg = None ->
  check_tokens = false
  ∧ ∀ telegram_Bot now ws σ,
      main telegram_Bot now ws σ =
      (inl (Raise SystemExit "Программа принудительно остановлена."),
       logged [Log CRITICAL "Отсутствует обязательная переменная окружения"] σ).
Proof.
  intros Hmiss.
  assert (Hno : check_tokens = false).
  { destruct check_tokens eqn:Hc; [|done].
    apply check_tokens_spec in Hc as ([? Hp] & [? Ht] & [? Hi]).
    destruct Hmiss as [H|[H|H]]; congruence. }
  split; [done|]. intros. by apply main_exits_without_credentials.
Qed.

(** X4. The bot is built outside the [try]: when [telegram.Bot(...)]
    raises, [main] ends with that exception before the first request, and
    nothing is logged or sent. *)
Theorem main_stops_when_bot_is_refused (telegram_Bot : option string -> option pyexn)
    (e : pyexn) (now : Z) (ws : list world) (σ : machine) :
  check_tokens = true ->
  telegram_Bot (TELEGRAM_TOKEN cfg) = Some e ->
  main telegram_Bot now ws σ = (inl e, σ).
Proof.
  intros Hok Hbot. unfold main. rewrite Hok, Hbot. by io_unfold.
Qed.

(** X5. Once the loop has been entered, and as long as the sends raise
    nothing but [TelegramError], nothing gets out of it: whatever the API
    answers and whether or not Telegram accepts the sends, every turn of
    the loop returns, so [main] never ends with an exception after its
    start-up. *)
Theorem loop_never_raises (telegram_Bot : option string -> option pyexn)
    (now : Z) (ws : list open_world) (σ : machine) :
  check_tokens = true ->
  telegram_Bot (TELEGRAM_TOKEN cfg) = None ->
  (∀ w, w ∈ ws -> telegram_only w) ->
  fst (main_any telegram_Bot now ws σ) = inr tt
  ∧ ∀ σ0, fst (loop_any ws σ0) = inr tt.
Proof.
  intros Hok Hbot Hws. split.
  - rewrite main_any_caught by done.
    unfold main. rewrite Hok, Hbot. io_unfold. apply loop_returns.
  - intros σ0. rewrite loop_any_caught by done. apply loop_returns.
Qed.

(** X6. Every turn of the loop makes one request, to [ENDPOINT] with
    the OAuth header and the cursor it starts with as [from_date], and
    ends with one [time.sleep] of [RETRY_PERIOD] seconds, on the failure
    path as on the others. *)
Theorem cycle_requests_once_and_sleeps (w : world) (σ : machine) :
  requests (trace (snd (cycle w σ))) =
  requests (trace σ) ++ [current_timestamp σ]
  ∧ HttpGet ENDPOINT ("OAuth " +:+ str_token (PRACTICUM_TOKEN cfg))
      (current_timestamp σ) ∈ trace (snd (cycle w σ))
  ∧ sleeps (trace (snd (cycle w σ))) = sleeps (trace σ) ++ [600]
  ∧ last (trace (snd (cycle w σ))) = Some (Sleep 600).
Proof.
  destruct (cycle_requests_sleeps w σ) as (Hreq & Hsl & Hlast).
  split; [done|]. split; [|done].
  destruct (cycle_trace_prefix w σ) as [evs ->].
  rewrite !elem_of_app. right. left.
  apply list_elem_of_further, list_elem_of_here.
Qed.

(** X7. A run of the loop over n turns has made n requests and has slept
    n times, [RETRY_PERIOD] seconds each. *)
Theorem loop_requests_and_sleeps (ws : list world) (σ : machine) :
  length (requests (trace (snd (loop ws σ)))) =
  (length (requests (trace σ)) + length ws)%nat
  ∧ sleeps (trace (snd (loop ws σ))) =
    sleeps (trace σ) ++ replicate (length ws) RETRY_PERIOD.
Proof.
  revert σ. induction ws as [|w ws IH]; intros σ.
  - simpl. split; [lia|by rewrite app_nil_r].
  - rewrite loop_cons. destruct (IH (snd (cycle w σ))) as [-> ->].
    destruct (cycle_requests_sleeps w σ) as (-> & -> & _).
    rewrite length_app. simpl. split; [lia|].
    by rewrite <- app_assoc.
Qed.

Lemma dict_with_key_nonempty (d : gmap string pyval) key v :
  d !! key = Some v -> truthy (PDict d) = true.
Proof.
  intros H. simpl. rewrite bool_decide_eq_false_2; [done|].
  intros ->. by rewrite lookup_empty in H.
Qed.

(** X8. When the first element of 'homeworks' is falsy (an empty dict,
    [None], zero, an empty string or list), the cycle treats it as "no new
    status": it logs the note at debug level, sends nothing, leaves
    [message] and [previous_message] alone, moves the cursor to
    'current_date' and sleeps. *)
Theorem cycle_without_new_status (w : world) (σ : machine)
    (d : gmap string pyval) (first : pyval) (rest : list pyval) (date : pyval) :
  requests_get w (current_timestamp σ) = Response 200 (inr (PDict d)) ->
  d !! "homeworks" = Some (PList (first :: rest)) ->
  d !! "current_date" = Some date ->
  truthy first = false ->
  cycle w σ =
  (inr tt,
   Machine date (previous_message σ) (message σ)
     (trace σ ++
      [Log INFO "Отправляем запрос к API Практикума";
       HttpGet ENDPOINT HEADERS_Authorization (current_timestamp σ);
       Log INFO "Начинаем проверку ответа сервера";
       Log DEBUG "В ответе отсутствует новый статус";
       Sleep 600])).
Proof.
  intros Hw Hh Hd Ht.
  erewrite cycle_no_record;
    [|by apply get_api_answer_ok|by eapply check_response_first|done].
  rewrite (dict_get_Some _ _ _ Hd).
  unfold logged, with_timestamp. simpl. by rewrite <- !app_assoc.
Qed.


(** What a turn of the loop does to the sends and to [previous_message]:
    nothing, or it has produced a text, which is now [previous_message]
    and has been sent if it was not already. *)
Lemma cycle_sends w σ :
  (notifications (trace (snd (cycle w σ))) = notifications (trace σ)
   ∧ previous_message (snd (cycle w σ)) = previous_message σ)
  ∨ ∃ text,
      produces w (current_timestamp σ) text
      ∧ previous_message (snd (cycle w σ)) = text
      ∧ notifications (trace (snd (cycle w σ))) =
        notifications (trace σ) ++
        (if String.eqb text (previous_message σ) then [] else [text]).
Proof.
  destruct (cycle_paths w σ) as [e H | d h Hf Hv Ht | d h text Hf Hv Ht Hp].
  - right. exists (failure_message e).
    assert (Hp : produces w (current_timestamp σ) (failure_message e))
      by by eapply produces_failure.
    split; [done|]. by apply cycle_produces.
  - left. erewrite cycle_no_record by done. cbn [snd].
    autorewrite with machine. simpl. by rewrite !app_nil_r.
  - right. exists text.
    assert (Hpr : produces w (current_timestamp σ) text)
      by by eapply produces_status.
    split; [done|]. by apply cycle_produces.
Qed.




Lemma verdicts_injective status1 status2 verdict1 verdict2 :
  HOMEWORK_VERDICTS !! status1 = Some verdict1 ->
  HOMEWORK_VERDICTS !! status2 = Some verdict2 ->
  status1 ≠ status2 -> verdict1 ≠ verdict2.
Proof.
  unfold HOMEWORK_VERDICTS. rewrite !lookup_insert, !lookup_empty.
  repeat case_decide; subst; intros [= <-] [= <-] Hne; try done;
    by (intros [=]).
Qed.

Lemma verdict_message_injective name verdict1 verdict2 :
  "Изменился статус проверки работы " +:+ dq +:+ py_str name +:+ dq +:+ ". " +:+ verdict1 =
  "Изменился статус проверки работы " +:+ dq +:+ py_str name +:+ dq +:+ ". " +:+ verdict2 ->
  verdict1 = verdict2.
Proof. intros H. by repeat apply (inj (String.app _)) in H. Qed.

(** X11. A change of status is always announced: when the last text sent
    was the verdict message of a homework under one status, and the cycle
    finds the same homework under another status of the table, the cycle
    sends the new verdict message. *)
Theorem status_change_is_announced (w : world) (σ : machine)
    (d h : gmap string pyval) (rest : list pyval) (date name : pyval)
    (status1 status2 verdict1 verdict2 : string) :
  HOMEWORK_VERDICTS !! status1 = Some verdict1 ->
  previous_message σ =
    "Изменился статус проверки работы " +:+ dq +:+
    py_str name +:+ dq +:+ ". " +:+ verdict1 ->
  requests_get w (current_timestamp σ) = Response 200 (inr (PDict d)) ->
  d !! "homeworks" = Some (PList (PDict h :: rest)) ->
  d !! "current_date" = Some date ->
  h !! "homework_name" = Some name ->
  h !! "status" = Some (PStr status2) ->
  HOMEWORK_VERDICTS !! status2 = Some verdict2 ->
  status1 ≠ status2 ->
  notifications (trace (snd (cycle w σ))) =
  notifications (trace σ) ++
  ["Изменился статус проверки работы " +:+ dq +:+
   py_str name +:+ dq +:+ ". " +:+ verdict2].
Proof.
  intros Hv1 Hprev Hw Hh Hd Hn Hs Hv2 Hne.
  assert (Hp : produces w (current_timestamp σ)
                 ("Изменился статус проверки работы " +:+ dq +:+
                  py_str name +:+ dq +:+ ". " +:+ verdict2)).
  { eapply produces_status.
    - by apply get_api_answer_ok.
    - by eapply check_response_first.
    - by eapply dict_with_key_nonempty.
    - by eapply parse_status_ok. }
  destruct (cycle_produces _ _ _ Hp) as [_ ->]. rewrite Hprev.
  destruct (String.eqb_spec
    ("Изменился статус проверки работы " +:+ dq +:+ py_str name +:+ dq +:+ ". " +:+ verdict2)
    ("Изменился статус проверки работы " +:+ dq +:+ py_str name +:+ dq +:+ ". " +:+ verdict1))
    as [Heq|_]; [|done].
  apply verdict_message_injective in Heq.
  by destruct (verdicts_injective _ _ _ _ Hv1 Hv2 Hne).
Qed.

Lemma parse_status_inr homework text :
  outcome (parse_status homework) = inr text ->
  ∃ name verdict,
    text = "Изменился статус проверки работы " +:+ dq +:+
           py_str name +:+ dq +:+ ". " +:+ verdict.
Proof.
  unfold outcome, parse_status. io_unfold.
  destruct homework as [| | | | |?|d]; simpl; try discriminate.
  destruct (negb (dict_contains "homework_name" d)); simpl; try discriminate.
  destruct (negb (dict_contains "status" d)); simpl; try discriminate.
  unfold verdicts_lookup.
  destruct (dict_get "status" d) as [| | | |s| |]; simpl; try discriminate.
  destruct (HOMEWORK_VERDICTS !! s); [|discriminate].
  intros [= <-]. eauto.
Qed.

Lemma produces_nonempty w timestamp text :
  produces w timestamp text -> text ≠ "".
Proof.
  intros [response homework _ _ _ Hp | e _ ->].
  - apply parse_status_inr in Hp as (name & verdict & ->). discriminate.
  - unfold failure_message. discriminate.
Qed.

Lemma main_enters_loop telegram_Bot now ws σ :
  check_tokens = true ->
  telegram_Bot (TELEGRAM_TOKEN cfg) = None ->
  main telegram_Bot now ws σ = loop ws (Machine (PInt now) "" "" (trace σ)).
Proof. intros Hok Hbot. unfold main. rewrite Hok, Hbot. by io_unfold. Qed.

Lemma loop_app ws1 ws2 σ :
  snd (loop (ws1 ++ ws2) σ) = snd (loop ws2 (snd (loop ws1 σ))).
Proof.
  revert σ. induction ws1 as [|w ws1 IH]; intros σ; [done|].
  change ((w :: ws1) ++ ws2) with (w :: (ws1 ++ ws2)).
  by rewrite !loop_cons, IH.
Qed.

Lemma nothing_found_keeps ws σ :
  nothing_found ws σ ->
  notifications (trace (snd (loop ws σ))) = notifications (trace σ)
  ∧ previous_message (snd (loop ws σ)) = previous_message σ.
Proof.
  revert σ. induction ws as [|w ws IH]; intros σ; [done|].
  intros [(d & homework & Hf & Hv & Ht) Hrest].
  rewrite loop_cons. destruct (IH _ Hrest) as [-> ->].
  erewrite cycle_no_record by done. cbn [snd].
  autorewrite with machine. simpl. by rewrite !app_nil_r.
Qed.

(** X12. Nothing is lost to the start-up value of [previous_message]:
    every message a cycle can produce is non-empty, so the first cycle of
    [main] that produces one sends it, after any number of turns that
    found no new status. *)
Theorem first_message_is_sent (telegram_Bot : option string -> option pyexn)
    (now : Z) (ws : list world) (w : world) (σ : machine) (text : string) :
  check_tokens = true ->
  telegram_Bot (TELEGRAM_TOKEN cfg) = None ->
  nothing_found ws (Machine (PInt now) "" "" (trace σ)) ->
  produces w
    (current_timestamp (snd (loop ws (Machine (PInt now) "" "" (trace σ)))))
    text ->
  text ≠ ""
  ∧ notifications (trace (snd (main telegram_Bot now (ws ++ [w]) σ))) =
    notifications (trace σ) ++ [text].
Proof.
  intros Hok Hbot Hquiet Hp.
  assert (Hne : text ≠ "") by by eapply produces_nonempty.
  split; [done|].
  rewrite main_enters_loop, loop_app, loop_cons by done.
  cbn [loop]. unfold ret. cbn [snd].
  destruct (nothing_found_keeps _ _ Hquiet) as [Hn Hprev].
  destruct (cycle_produces _ _ _ Hp) as [_ ->].
  rewrite Hn, Hprev. cbn [previous_message trace].
  by destruct (String.eqb_spec text "").
Qed.


Lemma get_api_answer_inr w timestamp body :
  outcome (get_api_answer w timestamp) = inr body ->
  requests_get w timestamp = Response 200 (inr body).
Proof.
  unfold outcome, get_api_answer. io_unfold. simpl.
  destruct (requests_get w timestamp) as [?|code [?|body']]; simpl;
    try discriminate; unfold HTTPStatus_OK;
    destruct (Z.eqb_spec code 200); simpl; try discriminate.
  intros [= <-]. by subst.
Qed.

Lemma check_response_has_date (d : gmap string pyval) homework :
  outcome (check_response (PDict d)) = inr homework ->
  d !! "current_date" = Some (dict_get "current_date" d).
Proof.
  unfold outcome, check_response, dict_contains, dict_get. io_unfold. simpl.
  destruct (d !! "homeworks"); simpl; [|discriminate].
  by destruct (d !! "current_date").
Qed.

(** X14. The cursor is never made up: after a turn of the loop it is
    what it was before, or it is the value a 200 answer of this turn held
    under 'current_date'. *)
Theorem cursor_is_kept_or_taken_from_the_answer (w : world) (σ : machine) :
  current_timestamp (snd (cycle w σ)) = current_timestamp σ
  ∨ ∃ d date,
      requests_get w (current_timestamp σ) = Response 200 (inr (PDict d))
      ∧ d !! "current_date" = Some date
      ∧ current_timestamp (snd (cycle w σ)) = date.
Proof.
  destruct (cycle_paths w σ) as [e H | d h Hf Hv Ht | d h text Hf Hv Ht Hp].
  - left. destruct (cycle_failure _ _ _ H) as (evs & _ & ->). cbn [snd].
    by autorewrite with machine.
  - right. exists d, (dict_get "current_date" d).
    split; [by apply get_api_answer_inr|].
    split; [by eapply check_response_has_date|].
    erewrite cycle_no_record by done. cbn [snd]. by autorewrite with machine.
  - right. exists d, (dict_get "current_date" d).
    split; [by apply get_api_answer_inr|].
    split; [by eapply check_response_has_date|].
    erewrite cycle_status by done. cbn [snd]. by autorewrite with machine.
Qed.

(** X15. A first element of 'homeworks' that is truthy but not a dict (a
    non-empty string or list, a number other than zero, [True]) passes
    [check_response] and fails in [parse_status] on [homework.keys()]: the
    cycle reports the [AttributeError] that names its type and keeps the
    cursor. *)
Theorem non_dict_homework_is_a_failure (w : world) (σ : machine)
    (d : gmap string pyval) (first : pyval) (rest : list pyval) (date : pyval) :
  requests_get w (current_timestamp σ) = Response 200 (inr (PDict d)) ->
  d !! "homeworks" = Some (PList (first :: rest)) ->
  d !! "current_date" = Some date ->
  truthy first = true ->
  (∀ h, first ≠ PDict h) ->
  let text := "Сбой в работе программы: " +:+
              ("'" +:+ type_name first +:+ "' object has no attribute 'keys'") in
  current_timestamp (snd (cycle w σ)) = current_timestamp σ
  ∧ previous_message (snd (cycle w σ)) = text
  ∧ notifications (trace (snd (cycle w σ))) =
    notifications (trace σ) ++
    (if String.eqb text (previous_message σ) then [] else [text]).
Proof.
  intros Hw Hh Hd Ht Hnd text.
  set (e := Raise AttributeError
              ("'" +:+ type_name first +:+ "' object has no attribute 'keys'")).
  assert (Hr : raises_in w (current_timestamp σ) e).
  { eapply raises_in_translation.
    - by apply get_api_answer_ok.
    - by eapply check_response_first.
    - done.
    - destruct first; try done. by destruct (Hnd entries). }
  assert (Hp : produces w (current_timestamp σ) text) by by eapply produces_failure.
  destruct (cycle_produces _ _ _ Hp) as [Hprev Hsent].
  split; [|done].
  destruct (cycle_failure _ _ _ Hr) as (evs & _ & ->). cbn [snd].
  by autorewrite with machine.
Qed.


Lemma notified_new_trace bot text σ :
  text ≠ previous_message σ ->
  trace (notified bot text σ) = trace σ ++ send_events bot text.
Proof.
  intros Hne. unfold notified.
  by destruct (String.eqb_spec text (previous_message σ)).
Qed.

Lemma cycle_produces_send_events w σ text :
  produces w (current_timestamp σ) text ->
  text ≠ previous_message σ ->
  ∃ before after,
    trace (snd (cycle w σ)) =
    before ++ send_events (bot_send_message w) text ++ after.
Proof.
  intros [response homework Hf Hv Ht Hp | e H ->] Hne.
  - destruct (check_response_dict _ _ Hv) as [d ->].
    erewrite cycle_status by done. cbn [snd].
    rewrite trace_logged, trace_with_timestamp, notified_new_trace by done.
    eexists _, _. by rewrite <- app_assoc.
  - destruct (cycle_failure _ _ _ H) as (evs & _ & ->). cbn [snd].
    rewrite trace_logged, notified_new_trace by done.
    eexists _, _. by rewrite <- app_assoc.
Qed.

(** X17. A send that fails is not tried again.  When a cycle produces a
    new text and [bot.send_message] fails on it, the error is logged and
    the text becomes [previous_message] all the same; a next cycle that
    produces the same text sends nothing, even if Telegram is back.  The
    two cycles have made one attempt, the failed one. *)
Theorem failed_send_is_not_retried (w1 w2 : world) (σ : machine)
    (text error : string) :
  produces w1 (current_timestamp σ) text ->
  text ≠ previous_message σ ->
  bot_send_message w1 text = TelegramError error ->
  produces w2 (current_timestamp (snd (cycle w1 σ))) text ->
  let σ1 := snd (cycle w1 σ) in
  let σ2 := snd (cycle w2 σ1) in
  Log ERROR ("Ошибка при отправке сообщения: " +:+ error) ∈ trace σ1
  ∧ previous_message σ1 = text
  ∧ notifications (trace σ2) = notifications (trace σ) ++ [text].
Proof.
  intros H1 Hne Hbot H2 σ1 σ2.
  destruct (cycle_produces _ _ _ H1) as [Hprev1 Hsent1].
  destruct (cycle_produces _ _ _ H2) as [_ Hsent2].
  fold σ1 in Hprev1, Hsent1, Hsent2. fold σ2 in Hsent2.
  split; [|split; [done|]].
  - destruct (cycle_produces_send_events _ _ _ H1 Hne) as (before & after & Htr).
    fold σ1 in Htr. rewrite Htr, !elem_of_app. right. left.
    unfold send_events. rewrite Hbot.
    apply list_elem_of_further, list_elem_of_further, list_elem_of_here.
  - rewrite Hsent2, Hprev1, String.eqb_refl, app_nil_r, Hsent1.
    by destruct (String.eqb_spec text (previous_message σ)).
Qed.

(** X18. An answer without 'current_date' is a failure even when it
    carries a homework: the homework is not looked at, the cursor is kept,
    and the message sent is built from [str] of the [KeyError], which is
    the [repr] of its text, quotes included. *)
Theorem missing_current_date_is_reported (w : world) (σ : machine)
    (d : gmap string pyval) :
  requests_get w (current_timestamp σ) = Response 200 (inr (PDict d)) ->
  d !! "current_date" = None ->
  let text := "Сбой в работе программы: " +:+
              py_repr (PStr ("Некорректный ответ от API - " +:+
                             "в словаре отсутствует необходимый ключ")) in
  current_timestamp (snd (cycle w σ)) = current_timestamp σ
  ∧ previous_message (snd (cycle w σ)) = text
  ∧ notifications (trace (snd (cycle w σ))) =
    notifications (trace σ) ++
    (if String.eqb text (previous_message σ) then [] else [text]).
Proof.
  intros Hw Hd text.
  set (e := Raise KeyError ("Некорректный ответ от API - " +:+
                            "в словаре отсутствует необходимый ключ")).
  assert (Hr : raises_in w (current_timestamp σ) e).
  { eapply raises_in_validation; [by apply get_api_answer_ok|].
    unfold outcome, check_response. io_unfold. simpl.
    rewrite (dict_contains_None _ _ Hd). simpl. by rewrite orb_true_r. }
  assert (Hp : produces w (current_timestamp σ) text) by by eapply produces_failure.
  destruct (cycle_produces _ _ _ Hp) as [Hprev Hsent].
  split; [|done].
  destruct (cycle_failure _ _ _ Hr) as (evs & _ & ->). cbn [snd].
  by autorewrite with machine.
Qed.

(** X19. An answer with a status code other than 200 is a failure whose
    message names the endpoint and the code; the body is not decoded, so
    it makes no difference whether it would decode.  The cursor is kept. *)
Theorem unexpected_status_is_reported (w : world) (σ : machine)
    (code : Z) (json : string + pyval) :
  requests_get w (current_timestamp σ) = Response code json ->
  code ≠ 200 ->
  let text := "Сбой в работе программы: " +:+
              ("Эндпоинт " +:+ ENDPOINT +:+ " недоступен. " +:+
               "Код ответа API: " +:+ pretty code) in
  current_timestamp (snd (cycle w σ)) = current_timestamp σ
  ∧ previous_message (snd (cycle w σ)) = text
  ∧ notifications (trace (snd (cycle w σ))) =
    notifications (trace σ) ++
    (if String.eqb text (previous_message σ) then [] else [text]).
Proof.
  intros Hw Hcode text.
  set (e := Raise Exception
              ("Эндпоинт " +:+ ENDPOINT +:+ " недоступен. " +:+
               "Код ответа API: " +:+ pretty code)).
  assert (Hr : raises_in w (current_timestamp σ) e).
  { apply raises_in_fetch. unfold outcome, get_api_answer. io_unfold. simpl.
    rewrite Hw. unfold HTTPStatus_OK. by destruct (Z.eqb_spec code 200). }
  assert (Hp : produces w (current_timestamp σ) text) by by eapply produces_failure.
  destruct (cycle_produces _ _ _ Hp) as [Hprev Hsent].
  split; [|done].
  destruct (cycle_failure _ _ _ Hr) as (evs & _ & ->). cbn [snd].
  by autorewrite with machine.
Qed.

(** X20. A recovery is announced even when the status has not changed:
    the comparison is with the last text sent only, and no verdict message
    equals a failure message, so after a reported failure the next verdict
    message is always sent. *)
Theorem recovery_is_announced (w : world) (σ : machine) (e : pyexn)
    (d h : gmap string pyval) (rest : list pyval) (date name : pyval)
    (status verdict : string) :
  previous_message σ = "Сбой в работе программы: " +:+ str_exn e ->
  requests_get w (current_timestamp σ) = Response 200 (inr (PDict d)) ->
  d !! "homeworks" = Some (PList (PDict h :: rest)) ->
  d !! "current_date" = Some date ->
  h !! "homework_name" = Some name ->
  h !! "status" = Some (PStr status) ->
  HOMEWORK_VERDICTS !! status = Some verdict ->
  notifications (trace (snd (cycle w σ))) =
  notifications (trace σ) ++
  ["Изменился статус проверки работы " +:+ dq +:+
   py_str name +:+ dq +:+ ". " +:+ verdict].
Proof.
  intros Hprev Hw Hh Hd Hn Hs Hv.
  assert (Hp : produces w (current_timestamp σ)
                 ("Изменился статус проверки работы " +:+ dq +:+
                  py_str name +:+ dq +:+ ". " +:+ verdict)).
  { eapply produces_status.
    - by apply get_api_answer_ok.
    - by eapply check_response_first.
    - by eapply dict_with_key_nonempty.
    - by eapply parse_status_ok. }
  destruct (cycle_produces _ _ _ Hp) as [_ ->]. rewrite Hprev.
  destruct (String.eqb_spec
    ("Изменился статус проверки работы " +:+ dq +:+ py_str name +:+ dq +:+ ". " +:+ verdict)
    ("Сбой в работе программы: " +:+ str_exn e)) as [Heq|_]; [|done].
  discriminate Heq.
Qed.

Lemma loop_requests_prefix ws σ :
  ∃ later,
    requests (trace (snd (loop ws σ))) = requests (trace σ) ++ later
    ∧ (∀ w ws', ws = w :: ws' -> ∃ later', later = current_timestamp σ :: later').
Proof.
  revert σ. induction ws as [|w ws IH]; intros σ.
  - exists []. split; [by rewrite app_nil_r|]. by intros.
  - rewrite loop_cons. destruct (IH (snd (cycle w σ))) as (later & -> & _).
    destruct (cycle_requests_sleeps w σ) as (-> & _).
    exists (current_timestamp σ :: later). split; [by rewrite <- app_assoc|].
    intros ? ? _. by eexists.
Qed.

(** X21. The first request [main] makes asks for the statuses since the
    moment it started: its [from_date] is [int(time.time())], read once
    before the loop. *)
Theorem main_first_request (telegram_Bot : option string -> option pyexn)
    (now : Z) (w : world) (ws : list world) (σ : machine) :
  check_tokens = true ->
  telegram_Bot (TELEGRAM_TOKEN cfg) = None ->
  ∃ later,
    requests (trace (snd (main telegram_Bot now (w :: ws) σ))) =
    requests (trace σ) ++ PInt now :: later.
Proof.
  intros Hok Hbot. rewrite main_enters_loop by done.
  destruct (loop_requests_prefix (w :: ws) (Machine (PInt now) "" "" (trace σ)))
    as (later & Hreq & Hfirst).
  destruct (Hfirst w ws eq_refl) as [later' ->].
  exists later'. exact Hreq.
Qed.

Lemma cycle_message w σ :
  message σ = previous_message σ ->
  message (snd (cycle w σ)) = previous_message (snd (cycle w σ)).
Proof.
  intros Heq.
  destruct (cycle_paths w σ) as [e H | d h Hf Hv Ht | d h text Hf Hv Ht Hp].
  - destruct (cycle_failure _ _ _ H) as (evs & _ & ->). cbn [snd].
    by autorewrite with machine.
  - erewrite cycle_no_record by done. cbn [snd]. by autorewrite with machine.
  - erewrite cycle_status by done. cbn [snd]. by autorewrite with machine.
Qed.

(** X22. Between turns of the loop [message] and [previous_message] hold
    the same text: they start equal in [main], and every path of a cycle
    that assigns one leaves the other equal to it. *)
Theorem message_tracks_previous_message (ws : list world) (σ : machine) :
  message σ = previous_message σ ->
  message (snd (loop ws σ)) = previous_message (snd (loop ws σ)).
Proof.
  revert σ. induction ws as [|w ws IH]; intros σ Heq; [done|].
  rewrite loop_cons. apply IH. by apply cycle_message.
Qed.

Lemma send_message_any_sends w text σ :
  notifications (trace (snd (send_message_any w text σ))) =
  notifications (trace σ) ++ [text].
Proof.
  unfold send_message_any, bind. io_unfold. simpl.
  destruct (uncaught w text); simpl.
  - by rewrite <- app_assoc, notifications_app.
  - destruct (bot_send_message (answers w) text); simpl;
      by rewrite <- !app_assoc, notifications_app.
Qed.

(** What the [try] block hands the bot: one text or none. *)
Lemma try_body_any_sends w σ :
  ∃ sent,
    notifications (trace (snd (try_body_any w σ))) =
    notifications (trace σ) ++ sent
    ∧ (length sent ≤ 1)%nat.
Proof.
  unfold try_body_any, bind, get_current_timestamp.
  rewrite get_api_answer_run.
  destruct (outcome (get_api_answer (answers w) (current_timestamp σ)))
    as [e|response] eqn:Hf.
  { exists []. cbn [snd]. autorewrite with machine.
    split; [by rewrite !app_nil_r|simpl; lia]. }
  rewrite check_response_run.
  destruct (outcome (check_response response)) as [e|homeworks] eqn:Hv.
  { exists []. cbn [snd]. autorewrite with machine.
    split; [by rewrite !app_nil_r|simpl; lia]. }
  destruct (check_response_dict _ _ Hv) as [d ->].
  destruct (truthy homeworks).
  2: { exists []. io_unfold. simpl.
       rewrite !notifications_app. simpl.
       split; [by rewrite !app_nil_r|lia]. }
  rewrite parse_status_run.
  destruct (outcome (parse_status homeworks)) as [e|text].
  { exists []. cbn [snd]. autorewrite with machine.
    split; [by rewrite !app_nil_r|simpl; lia]. }
  unfold set_message, get_previous_message. cbn [fst snd previous_message logged].
  destruct (negb (String.eqb text (previous_message σ))).
  2: { exists []. io_unfold. simpl.
       rewrite !notifications_app. simpl.
       split; [by rewrite !app_nil_r|lia]. }
  match goal with
  | |- context [send_message_any w text ?s] =>
      pose proof (send_message_any_sends w text s) as Hsent;
      destruct (send_message_any w text s) as [[e|[]] σ1]
  end; cbn [snd] in Hsent; exists [text]; (split; [|simpl; lia]).
  - cbn [snd]. rewrite Hsent. cbn [trace].
    autorewrite with machine. by rewrite !app_nil_r.
  - unfold set_previous_message, response_get, ret, set_current_timestamp.
    cbn [snd trace]. rewrite Hsent. cbn [trace].
    autorewrite with machine. by rewrite !app_nil_r.
Qed.

(** What the [except] block hands the bot: one text or none. *)
Lemma handler_any_sends w e σ :
  ∃ sent,
    notifications (trace (snd (handler_any w e σ))) =
    notifications (trace σ) ++ sent
    ∧ (length sent ≤ 1)%nat.
Proof.
  unfold handler_any, bind, set_message, get_message, logger_error, emit,
    get_previous_message. cbn [fst snd previous_message message trace].
  destruct (negb (String.eqb ("Сбой в работе программы: " +:+ str_exn e)
                             (previous_message σ))).
  2: { exists []. unfold ret. cbn [snd trace]. rewrite notifications_app.
       split; [done|simpl; lia]. }
  match goal with
  | |- context [send_message_any w ?t ?s] =>
      pose proof (send_message_any_sends w t s) as Hsent;
      destruct (send_message_any w t s) as [[e'|[]] σ1]
  end; cbn [snd trace] in Hsent; eexists [_]; (split; [|simpl; lia]).
  - cbn [snd]. rewrite Hsent, notifications_app. simpl. by rewrite app_nil_r.
  - unfold set_previous_message. cbn [snd trace].
    rewrite Hsent, notifications_app. simpl. by rewrite app_nil_r.
Qed.

Lemma cycle_any_sends w σ :
  (length (notifications (trace (snd (cycle_any w σ))))
   ≤ length (notifications (trace σ)) + 2)%nat.
Proof.
  unfold cycle_any, try_finally, try_except.
  destruct (try_body_any_sends w σ) as (sent1 & H1 & Hl1).
  destruct (try_body_any w σ) as [[e|[]] σ1]; cbn [snd] in H1.
  - destruct (is_Exception (exn_class_of e)).
    + destruct (handler_any_sends w e σ1) as (sent2 & H2 & Hl2).
      destruct (handler_any w e σ1) as [r σ2]. cbn [snd] in H2.
      io_unfold. cbn [snd trace].
      rewrite notifications_app, H2, H1, !length_app. simpl. lia.
    + io_unfold. cbn [snd trace].
      rewrite notifications_app, H1, !length_app. simpl. lia.
  - io_unfold. cbn [snd trace].
    rewrite notifications_app, H1, !length_app. simpl. lia.
Qed.

Lemma loop_any_sends ws σ :
  (length (notifications (trace (snd (loop_any ws σ))))
   ≤ length (notifications (trace σ)) + 2 * length ws)%nat.
Proof.
  revert σ. induction ws as [|w ws IH]; intros σ; [simpl; lia|].
  pose proof (cycle_any_sends w σ) as Hc.
  cbn [loop_any]. unfold bind.
  destruct (cycle_any w σ) as [[e|[]] σ1]; cbn [snd] in *.
  - simpl. lia.
  - specialize (IH σ1). simpl length. lia.
Qed.

Lemma loop_sends ws σ :
  (length (notifications (trace (snd (loop ws σ))))
   ≤ length (notifications (trace σ)) + length ws)%nat.
Proof.
  revert σ. induction ws as [|w ws IH]; intros σ.
  - simpl. lia.
  - rewrite loop_cons. specialize (IH (snd (cycle w σ))).
    destruct (cycle_sends w σ) as [[Hn _] | (text & _ & _ & Hn)];
      rewrite Hn in IH.
    + simpl. lia.
    + rewrite length_app in IH.
      destruct (String.eqb text (previous_message σ)); simpl in *; lia.
Qed.

(** X23. A run of n turns of the loop calls [bot.send_message] at most 2n
    times, whatever the bot does: the [try] block sends once at most and
    the [except] block once at most.  When the sends raise nothing but
    [TelegramError] it calls it at most n times: a turn sends one message
    or none. *)
Theorem sends_per_turn_are_bounded (ws : list open_world) (σ : machine) :
  (length (notifications (trace (snd (loop_any ws σ))))
   ≤ length (notifications (trace σ)) + 2 * length ws)%nat
  ∧ ((∀ w, w ∈ ws -> telegram_only w) ->
     (length (notifications (trace (snd (loop_any ws σ))))
      ≤ length (notifications (trace σ)) + length ws)%nat).
Proof.
  split; [apply loop_any_sends|].
  intros Hws. rewrite loop_any_caught by done.
  pose proof (loop_sends (answers <$> ws) σ) as H.
  by rewrite length_fmap in H.
Qed.

End Program.

(** ** Worked examples *)





Lemma parse_status_message_witness :
  parse_status Samples.repr (Samples.homework (PStr "proj1") (PStr "approved"))
    Samples.started =
  (inr Samples.approved_proj1, Samples.started).
Proof.
  destruct (parse_status_message Samples.repr
              (<["homework_name" := PStr "proj1"]> (<["status" := PStr "approved"]> ∅))
              (PStr "proj1") "approved")
    as (verdict & Hv & Hrun & _).
  - reflexivity.
  - reflexivity.
  - apply list_elem_of_here.
  - unfold Samples.homework. rewrite (Hrun Samples.started).
    vm_compute in Hv. by injection Hv as <-.
Defined.

Lemma cycle_on_exception_witness :
  ∃ σ',
    cycle Samples.repr Samples.credentials Samples.unreachable Samples.started =
    (inr tt, σ')
    ∧ notifications (trace σ') =
      ["Сбой в работе программы: Проблемы с подключением к серверу"]
    ∧ current_timestamp σ' = PInt 5.
Proof.
  destruct (cycle_on_exception Samples.repr Samples.credentials
              Samples.unreachable Samples.started
              (Raise ConnectionError "Проблемы с подключением к серверу"))
    as (σ' & Hrun & _ & _ & Hsent & _ & Hts & _).
  - apply raises_in_fetch. reflexivity.
  - exists σ'. split; [exact Hrun|]. split; [exact Hsent|exact Hts].
Defined.

Lemma empty_homeworks_is_a_failure_witness :
  let response := PDict (Samples.answer (PList []) (PInt 1000)) in
  outcome (check_response response) =
  inl (Raise IndexError "list index out of range")
  ∧ ∃ σ',
      cycle Samples.repr Samples.credentials (Samples.serving response)
        Samples.started = (inr tt, σ')
      ∧ notifications (trace σ') =
        ["Сбой в работе программы: list index out of range"]
      ∧ current_timestamp σ' = PInt 5.
Proof.
  intros response.
  destruct (empty_homeworks_is_a_failure Samples.repr Samples.credentials
              (Samples.answer (PList []) (PInt 1000)) (PInt 1000))
    as [Hv Hcycle].
  - reflexivity.
  - reflexivity.
  - split; [exact Hv|].
    destruct (Hcycle (Samples.serving response) Samples.started)
      as (σ' & Hrun & _ & Hsent & Hts).
    + reflexivity.
    + exists σ'. split; [exact Hrun|]. split; [exact Hsent|exact Hts].
Defined.



(** C8, where the claim fails: the homework is served and every send
    raises an exception that is not a [TelegramError].  The exception
    leaves [send_message]; the cycle that met it while sending the verdict
    message sends a second message, about that failure; the second send
    raises in the [except] block, where nothing catches it, and [main]
    ends after one turn. *)
Lemma uncaught_send_failure_ends_main :
  let body := PDict (Samples.answer
                       (PList [Samples.homework (PStr "proj1") (PStr "approved")])
                       (PInt 1000)) in
  let w := Samples.broken_bot body in
  let run := main_any Samples.repr Samples.credentials (fun _ => None) 5 [w; w] boot in
  fst (send_message_any Samples.credentials w "text" Samples.started) =
    inl (Raise Exception "send failed")
  ∧ fst (cycle_any Samples.repr Samples.credentials w Samples.started) =
    inl (Raise Exception "send failed")
  ∧ notifications
      (trace (snd (cycle_any Samples.repr Samples.credentials w Samples.started))) =
    [Samples.approved_proj1; "Сбой в работе программы: send failed"]
  ∧ fst run = inl (Raise Exception "send failed")
  ∧ sleeps (trace (snd run)) = [600].
Proof. intros body w run. repeat split; reflexivity. Defined.

Lemma telegram_error_is_swallowed_witness :
  send_message_any Samples.credentials
    (OpenWorld (Samples.telegram_down PNone) (fun _ => None)) "text"
    Samples.started =
  (inr tt,
   logged [Log INFO ("Бот отправил сообщение: " +:+ "text");
           SendMessage (Some "424242") "text";
           Log ERROR ("Ошибка при отправке сообщения: " +:+ "Timed out")]
     Samples.started).
Proof.
  destruct (telegram_error_is_swallowed Samples.repr Samples.credentials)
    as [Hsend _].
  apply (Hsend (OpenWorld (Samples.telegram_down PNone) (fun _ => None))
               "text" "Timed out");
    reflexivity.
Defined.



(** C10, where the claim fails: the three credentials are set and
    [TELEGRAM_TOKEN] is the empty string.  [check_tokens] returns [True],
    the constructor refuses the token, and [main] ends with [InvalidToken]
    without having made a request: the loop does not start. *)
Lemma empty_telegram_token_stops_main :
  let cfg := Config (Some "y0_practicum") (Some "") (Some "424242") in
  let run := main Samples.repr cfg Samples.telegram_Bot 5 [Samples.unreachable] boot in
  check_tokens cfg = true
  ∧ fst run = inl (Raise InvalidToken "Invalid token")
  ∧ requests (trace (snd run)) = []
  ∧ run ≠ loop Samples.repr cfg [Samples.unreachable] (Machine (PInt 5) "" "" []).
Proof.
  intros cfg run. repeat split; try reflexivity. vm_compute. discriminate.
Defined.

Lemma check_tokens_only_tests_presence_witness :
  check_tokens Samples.empty_chat_id = true
  ∧ ∀ now ws σ,
      main Samples.repr Samples.empty_chat_id Samples.telegram_Bot now ws σ =
      loop Samples.repr Samples.empty_chat_id ws
        (Machine (PInt now) "" "" (trace σ)).
Proof.
  destruct (check_tokens_only_tests_presence Samples.repr Samples.empty_chat_id)
    as [_ H].
  destruct (H "y0_practicum" "5000:telegram" "") as (Hok & _ & Hmain).
  - reflexivity.
  - reflexivity.
  - reflexivity.
  - right. right. reflexivity.
  - split; [exact Hok|]. intros now ws σ.
    by apply (Hmain Samples.telegram_Bot now ws σ).
Defined.

(** The first end-to-end scenario: one approved homework, current date
    1000.  The bot is handed the verdict message once and the cursor
    moves to 1000. *)
Example approved_homework_is_announced :
  let body := PDict (Samples.answer
                       (PList [Samples.homework (PStr "proj1") (PStr "approved")])
                       (PInt 1000)) in
  let σ := snd (main Samples.repr Samples.credentials (fun _ => None) 5
                  [Samples.serving body] boot) in
  notifications (trace σ) = [Samples.approved_proj1]
  ∧ current_timestamp σ = PInt 1000
  ∧ previous_message σ = Samples.approved_proj1.
Proof. intros body σ. repeat split; reflexivity. Qed.

(** ** Worked examples for the further properties *)

Lemma check_response_returns_first_witness :
  check_response
    (PDict (Samples.answer
              (PList [Samples.homework (PStr "proj2") (PStr "reviewing");
                      Samples.homework (PStr "proj1") (PStr "approved")])
              (PInt 1000)))
    Samples.started =
  (inr (Samples.homework (PStr "proj2") (PStr "reviewing")),
   logged [Log INFO "Начинаем проверку ответа сервера"] Samples.started).
Proof.
  apply (check_response_returns_first _ _
           [Samples.homework (PStr "proj1") (PStr "approved")] (PInt 1000));
    reflexivity.
Defined.

Lemma undecodable_body_is_a_failure_witness :
  outcome (get_api_answer Samples.credentials
             (World (fun _ => Response 200 (inl "Expecting value"))
                    (fun _ => Delivered))
             (PInt 5)) =
  inl (Raise JSONDecodeError "Expecting value").
Proof.
  apply (undecodable_body_is_a_failure Samples.repr Samples.credentials
           (World (fun _ => Response 200 (inl "Expecting value"))
                  (fun _ => Delivered))
           Samples.started "Expecting value").
  reflexivity.
Defined.

Lemma main_stops_without_credentials_witness :
  check_tokens (Config (Some "y0_practicum") None (Some "424242")) = false.
Proof.
  apply (main_stops_without_credentials Samples.repr
           (Config (Some "y0_practicum") None (Some "424242"))).
  right. left. reflexivity.
Defined.

Lemma main_stops_when_bot_is_refused_witness :
  main Samples.repr Samples.credentials
    (fun _ => Some (Raise InvalidToken "Invalid token")) 5
    [Samples.unreachable] boot =
  (inl (Raise InvalidToken "Invalid token"), boot).
Proof.
  apply (main_stops_when_bot_is_refused Samples.repr Samples.credentials);
    reflexivity.
Defined.

Lemma loop_never_raises_witness :
  fst (main_any Samples.repr Samples.credentials (fun _ => None) 5
         [OpenWorld Samples.unreachable (fun _ => None);
          OpenWorld (Samples.telegram_down PNone) (fun _ => None)] boot) = inr tt.
Proof.
  apply (loop_never_raises Samples.repr Samples.credentials (fun _ => None) 5
           [OpenWorld Samples.unreachable (fun _ => None);
            OpenWorld (Samples.telegram_down PNone) (fun _ => None)] boot);
    try reflexivity.
  intros w Hin text. rewrite !elem_of_cons in Hin.
  destruct Hin as [->|[->|?%elem_of_nil]]; done.
Defined.

Lemma cycle_without_new_status_witness :
  cycle Samples.repr Samples.credentials
    (Samples.serving (PDict (Samples.answer (PList [PDict ∅]) (PInt 1000))))
    Samples.started =
  (inr tt,
   Machine (PInt 1000) "" ""
     [Log INFO "Отправляем запрос к API Практикума";
      HttpGet ENDPOINT "OAuth y0_practicum" (PInt 5);
      Log INFO "Начинаем проверку ответа сервера";
      Log DEBUG "В ответе отсутствует новый статус";
      Sleep 600]).
Proof.
  apply (cycle_without_new_status Samples.repr Samples.credentials
           (Samples.serving (PDict (Samples.answer (PList [PDict ∅]) (PInt 1000))))
           Samples.started
           (Samples.answer (PList [PDict ∅]) (PInt 1000))
           (PDict ∅) [] (PInt 1000));
    reflexivity.
Defined.



Lemma status_change_is_announced_witness :
  let text := "Изменился статус проверки работы " +:+ dq +:+ "proj1" +:+ dq +:+
              ". Работа взята на проверку ревьюером." in
  notifications
    (trace
       (snd (cycle Samples.repr Samples.credentials
               (Samples.serving
                  (PDict (Samples.answer
                            (PList [Samples.homework (PStr "proj1") (PStr "approved")])
                            (PInt 1000))))
               (Machine (PInt 5) text text [])))) =
  [Samples.approved_proj1].
Proof.
  intros text.
  apply (status_change_is_announced Samples.repr Samples.credentials
           (Samples.serving
              (PDict (Samples.answer
                        (PList [Samples.homework (PStr "proj1") (PStr "approved")])
                        (PInt 1000))))
           (Machine (PInt 5) text text [])
           (Samples.answer
              (PList [Samples.homework (PStr "proj1") (PStr "approved")])
              (PInt 1000))
           (<["homework_name" := PStr "proj1"]> (<["status" := PStr "approved"]> ∅))
           [] (PInt 1000) (PStr "proj1") "reviewing" "approved"
           "Работа взята на проверку ревьюером."
           "Работа проверена: ревьюеру всё понравилось. Ура!");
    try reflexivity.
  discriminate.
Defined.

Lemma first_message_is_sent_witness :
  notifications
    (trace (snd (main Samples.repr Samples.credentials (fun _ => None) 5
                   [Samples.serving
                      (PDict (Samples.answer (PList [PDict ∅]) (PInt 1000)));
                    Samples.unreachable] boot))) =
  ["Сбой в работе программы: Проблемы с подключением к серверу"].
Proof.
  apply (first_message_is_sent Samples.repr Samples.credentials
           (fun _ => None) 5
           [Samples.serving
              (PDict (Samples.answer (PList [PDict ∅]) (PInt 1000)))]
           Samples.unreachable boot
           "Сбой в работе программы: Проблемы с подключением к серверу");
    try reflexivity.
  - split; [|exact I]. eexists _, _. repeat split; reflexivity.
  - eapply produces_failure; [apply raises_in_fetch|]; reflexivity.
Defined.


Lemma non_dict_homework_is_a_failure_witness :
  notifications
    (trace
       (snd (cycle Samples.repr Samples.credentials
               (Samples.serving
                  (PDict (Samples.answer (PList [PStr "proj1"]) (PInt 1000))))
               Samples.started))) =
  ["Сбой в работе программы: 'str' object has no attribute 'keys'"].
Proof.
  apply (non_dict_homework_is_a_failure Samples.repr Samples.credentials
           (Samples.serving
              (PDict (Samples.answer (PList [PStr "proj1"]) (PInt 1000))))
           Samples.started
           (Samples.answer (PList [PStr "proj1"]) (PInt 1000))
           (PStr "proj1") [] (PInt 1000));
    try reflexivity.
  intros h. discriminate.
Defined.


Lemma failed_send_is_not_retried_witness :
  let body := PDict (Samples.answer
                       (PList [Samples.homework (PStr "proj1") (PStr "approved")])
                       (PInt 1000)) in
  let σ1 := snd (cycle Samples.repr Samples.credentials
                   (Samples.telegram_down body) Samples.started) in
  let σ2 := snd (cycle Samples.repr Samples.credentials
                   (Samples.serving body) σ1) in
  Log ERROR ("Ошибка при отправке сообщения: " +:+ "Timed out") ∈ trace σ1
  ∧ previous_message σ1 = Samples.approved_proj1
  ∧ notifications (trace σ2) = [Samples.approved_proj1].
Proof.
  intros body σ1 σ2.
  apply (failed_send_is_not_retried Samples.repr Samples.credentials
           (Samples.telegram_down body) (Samples.serving body)
           Samples.started Samples.approved_proj1 "Timed out").
  - eapply produces_status; reflexivity.
  - discriminate.
  - reflexivity.
  - eapply produces_status; reflexivity.
Defined.

Lemma missing_current_date_is_reported_witness :
  let d : gmap string pyval :=
    <["homeworks" := PList [Samples.homework (PStr "proj1") (PStr "approved")]]> ∅ in
  notifications
    (trace (snd (cycle Samples.repr Samples.credentials
                   (Samples.serving (PDict d)) Samples.started))) =
  ["Сбой в работе программы: " +:+
   ("'" +:+ "Некорректный ответ от API - в словаре отсутствует необходимый ключ"
    +:+ "'")].
Proof.
  intros d.
  apply (missing_current_date_is_reported Samples.repr Samples.credentials
           (Samples.serving (PDict d)) Samples.started d);
    reflexivity.
Defined.

Lemma unexpected_status_is_reported_witness :
  notifications
    (trace (snd (cycle Samples.repr Samples.credentials
                   (World (fun _ => Response 503 (inl "Service Unavailable"))
                          (fun _ => Delivered))
                   Samples.started))) =
  ["Сбой в работе программы: Эндпоинт " +:+ ENDPOINT +:+
   " недоступен. Код ответа API: 503"].
Proof.
  apply (unexpected_status_is_reported Samples.repr Samples.credentials
           (World (fun _ => Response 503 (inl "Service Unavailable"))
                  (fun _ => Delivered))
           Samples.started 503 (inl "Service Unavailable")).
  - reflexivity.
  - discriminate.
Defined.

Lemma recovery_is_announced_witness :
  let outage := "Сбой в работе программы: Проблемы с подключением к серверу" in
  notifications
    (trace
       (snd (cycle Samples.repr Samples.credentials
               (Samples.serving
                  (PDict (Samples.answer
                            (PList [Samples.homework (PStr "proj1") (PStr "approved")])
                            (PInt 1000))))
               (Machine (PInt 5) outage outage [])))) =
  [Samples.approved_proj1].
Proof.
  intros outage.
  apply (recovery_is_announced Samples.repr Samples.credentials
           (Samples.serving
              (PDict (Samples.answer
                        (PList [Samples.homework (PStr "proj1") (PStr "approved")])
                        (PInt 1000))))
           (Machine (PInt 5) outage outage [])
           (Raise ConnectionError "Проблемы с подключением к серверу")
           (Samples.answer
              (PList [Samples.homework (PStr "proj1") (PStr "approved")])
              (PInt 1000))
           (<["homework_name" := PStr "proj1"]> (<["status" := PStr "approved"]> ∅))
           [] (PInt 1000) (PStr "proj1") "approved"
           "Работа проверена: ревьюеру всё понравилось. Ура!");
    reflexivity.
Defined.

Lemma main_first_request_witness :
  ∃ later,
    requests
      (trace (snd (main Samples.repr Samples.credentials (fun _ => None) 5
                     [Samples.unreachable; Samples.unreachable] boot))) =
    PInt 5 :: later.
Proof.
  apply (main_first_request Samples.repr Samples.credentials (fun _ => None) 5
           Samples.unreachable [Samples.unreachable] boot);
    reflexivity.
Defined.

Lemma message_tracks_previous_message_witness :
  let σ := snd (loop Samples.repr Samples.credentials
                  [Samples.unreachable;
                   Samples.serving (PDict (Samples.answer (PList [PDict ∅]) (PInt 1000)))]
                  Samples.started) in
  message σ = previous_message σ.
Proof.
  intros σ.
  apply (message_tracks_previous_message Samples.repr Samples.credentials).
  reflexivity.
Defined.
